(** * spritesheet.js: the command-line front end and the [generate] driver

    A shallow embedding of [src/index.js]: the [FORMATS] table, the
    command-line option table with its [check] callback, and the function
    [generate] (option defaulting, frame naming, output clean-up and the
    five-stage waterfall over the generator).

    JavaScript values are embedded as an inductive type, the option object
    as a finite map from property names to values, the file system as a
    finite map from paths to nodes, and the effects of [generate] as
    explicit state passing with an outcome that is either an exception
    escaping [generate] or an invocation of the caller's callback.

    A string is the sequence of the bytes of its UTF-8 encoding; the
    indices of the string methods count bytes. *)

From Stdlib Require Import ZArith String Ascii List Bool Lia.
From Stdlib Require Import DecimalString DecimalPos DecimalZ.
From stdpp Require Import base option gmap strings list fin_maps.

Set Warnings "-register-all".

Local Open Scope string_scope.
Local Open Scope Z_scope.

(** ** JavaScript values *)

(** Numbers: [NaN], the two infinities, and the numbers whose value is
    an integer. [Int z] stands for a number when [z] is the value of a
    double, that is when [round_double z = Int z] below. The two zeros
    are not told apart, and numbers with a fractional part are not
    represented: no statement below speaks of an option that holds
    one. *)
Inductive number :=
| NaN
| Inf (negative : bool)
| Int (z : Z).

Module Format.
(** A member of the [FORMATS] table. *)
Record entry := mk {
  template : string;
  extension : string;
  trim : bool
}.
End Format.

Inductive value :=
| VUndef
| VNull
| VBool (b : bool)
| VNum (n : number)
| VStr (s : string)
| VArr (l : list value)
| VEntry (e : Format.entry)   (* an object of the [FORMATS] table *)
| VBuiltin (f : string).      (* a member inherited from a built-in prototype:
                                 a function, or for the name [__proto__]
                                 the prototype itself *)

(** Exceptions of the run time and errors created by the program. *)
Inductive error :=
| TypeError (msg : string)
| FsError (code : string) (path : string)
| Error (msg : string).

(** A computation that may throw. *)
Inductive exc (A : Type) :=
| Ret (a : A)
| Throw (e : error).
Arguments Ret {A} a.
Arguments Throw {A} e.

Definition exc_bind {A B} (m : exc A) (k : A -> exc B) : exc B :=
  match m with
  | Ret a => k a
  | Throw e => Throw e
  end.

Declare Scope exc_scope.
Delimit Scope exc_scope with exc.
Notation "'let!' x ':=' m 'in' k" := (exc_bind m (fun x => k))
  (at level 10, x pattern, m at level 100, k at level 200) : exc_scope.
Local Open Scope exc_scope.

(** [isNaN] on a number. *)
Definition isNaN (n : number) : bool :=
  match n with NaN => true | Inf _ | Int _ => false end.

(** The number nearest to the integer [z]: [z] itself when it has at
    most 53 significant bits; otherwise [z] rounded to 53 significant
    bits, a tie going to the even neighbour, and an infinity when the
    rounded magnitude reaches 2^1024. *)
Definition round_double (z : Z) : number :=
  let a := Z.abs z in
  let bits := Z.log2 a + 1 in
  if bits <=? 53 then Int z
  else
    let unit := 2 ^ (bits - 53) in
    let q := a / unit in
    let r := a mod unit in
    let q' := if ((unit <? 2 * r) || ((2 * r =? unit) && Z.odd q))%bool
              then q + 1 else q in
    if 2 ^ 1024 <=? q' * unit then Inf (z <? 0)
    else Int (Z.sgn z * (q' * unit)).

(** ToBoolean: [undefined], [null], [false], [0], [NaN] and the empty
    string are falsy, everything else (arrays and objects included) is
    truthy. *)
Definition truthy (v : value) : bool :=
  match v with
  | VUndef | VNull => false
  | VBool b => b
  | VNum NaN => false
  | VNum (Inf _) => true
  | VNum (Int z) => negb (z =? 0)
  | VStr s => negb (String.eqb s "")
  | VArr _ | VEntry _ | VBuiltin _ => true
  end.

(** [a || b] *)
Definition js_or (a b : value) : value := if truthy a then a else b.

(** The decimal digits of an integer, with a minus sign when negative. *)
Definition decimal (z : Z) : string := NilZero.string_of_int (Z.to_int z).

(** The shortest digits of a number [a] of [nd] decimal digits: the
    least [k], from [k] on, for which an integer [s] next to
    [a / 10^(nd-k)] has [a] as the number nearest to [s * 10^(nd-k)],
    with that [s]; of the two neighbours the one closer to [a] is taken
    first, the even one when both are as close. *)
Fixpoint shortest_digits (fuel : nat) (k nd a : Z) : option (Z * Z) :=
  match fuel with
  | O => None
  | S fuel' =>
      let scale := 10 ^ (nd - k) in
      let lo := a / scale in
      let hi := lo + 1 in
      let dlo := a - lo * scale in
      let dhi := hi * scale - a in
      let lo_first := ((dlo <? dhi) || ((dlo =? dhi) && Z.even lo))%bool in
      let s1 := if lo_first then lo else hi in
      let s2 := if lo_first then hi else lo in
      let gives s := match round_double (s * scale) with
                     | Int m => m =? a
                     | _ => false
                     end in
      if gives s1 then Some (s1, k)
      else if gives s2 then Some (s2, k)
      else shortest_digits fuel' (k + 1) nd a
  end.

(** The first of the digits, the others after a point, and the power
    of ten. *)
Definition exponent_string (ds : string) (e : Z) : string :=
  match ds with
  | String d EmptyString => String d EmptyString
  | String d rest => String d ("." ++ rest)
  | EmptyString => EmptyString
  end ++ "e+" ++ decimal e.

(** A magnitude from 2^53 on is printed by its shortest digits: below
    10^21 they are followed by zeros, from 10^21 on by an exponent. *)
Definition magnitude_string (a : Z) : string :=
  let nd := Z.of_nat (String.length (decimal a)) in
  match shortest_digits 17 1 nd a with
  | Some (s, k) =>
      if a <? 10 ^ 21 then decimal (s * 10 ^ (nd - k))
      else if s =? 10 ^ k then exponent_string "1" nd
      else exponent_string (decimal s) (nd - 1)
  | None => decimal a
  end.

(** Number to string. An integer below 2^53 in magnitude prints its
    decimal digits, which are its shortest digits. *)
Definition number_to_string (n : number) : string :=
  match n with
  | NaN => "NaN"
  | Inf false => "Infinity"
  | Inf true => "-Infinity"
  | Int z =>
      if Z.abs z <? 2 ^ 53 then decimal z
      else (if z <? 0 then "-" else "") ++ magnitude_string (Z.abs z)
  end.

(** ToString. An array prints its elements separated by commas, with
    [undefined] and [null] elements printed as the empty string. *)
Fixpoint ToString (v : value) : string :=
  match v with
  | VUndef => "undefined"
  | VNull => "null"
  | VBool true => "true"
  | VBool false => "false"
  | VNum n => number_to_string n
  | VStr s => s
  | VArr l =>
      (fix join (l : list value) : string :=
         match l with
         | [] => ""
         | x :: rest =>
             let sx := match x with
                       | VUndef | VNull => ""
                       | _ => ToString x
                       end in
             match rest with
             | [] => sx
             | _ :: _ => sx ++ "," ++ join rest
             end
         end) l
  | VEntry _ => "[object Object]"
  | VBuiltin f =>
      if String.eqb f "__proto__" then "[object Object]"
      else "function " ++ f ++ "() { [native code] }"
  end.

(** [a + b] where one side is a string: string concatenation. *)
Definition js_concat (a b : value) : string := ToString a ++ ToString b.

(** [v === s] for a string literal [s]. *)
Definition strict_eq_str (v : value) (s : string) : bool :=
  match v with
  | VStr t => String.eqb t s
  | _ => false
  end.

(** ** String methods *)

Definition zlength (s : string) : Z := Z.of_nat (String.length s).

(** [s.lastIndexOf(pat)]: the greatest index at which [pat] occurs in
    [s], or -1. The walk over [s] is at index [i] and [best] is the last
    match seen so far. *)
Fixpoint lastIndexOf_from (s pat : string) (i best : Z) : Z :=
  match s with
  | EmptyString => if String.prefix pat s then i else best
  | String _ s' =>
      lastIndexOf_from s' pat (i + 1) (if String.prefix pat s then i else best)
  end.

Definition lastIndexOf (s pat : string) : Z := lastIndexOf_from s pat 0 (-1).

(** [s.substring(a, b)]: both indices are clamped to [0, length], and
    swapped when the first exceeds the second. *)
Definition clamp (len i : Z) : Z := Z.min (Z.max i 0) len.

Definition substring (s : string) (a b : Z) : string :=
  let a' := clamp (zlength s) a in
  let b' := clamp (zlength s) b in
  let lo := Z.min a' b' in
  let hi := Z.max a' b' in
  String.substring (Z.to_nat lo) (Z.to_nat (hi - lo)) s.

(** [s.split(sep)] for a one-character separator: the pieces between the
    occurrences of [sep], never an empty array. *)
Fixpoint split (sep : ascii) (s : string) : list string :=
  match s with
  | EmptyString => [EmptyString]
  | String c s' =>
      if Ascii.eqb c sep then EmptyString :: split sep s'
      else match split sep s' with
           | [] => [String c EmptyString]
           | piece :: pieces => String c piece :: pieces
           end
  end.

(** [arr.pop()] on an array of strings: its last element, [undefined]
    on the empty array. *)
Definition pop (l : list string) : value :=
  match List.rev l with
  | [] => VUndef
  | x :: _ => VStr x
  end.

(** [s.replace(/\\ /g, " ")]: every backslash followed by a space becomes
    a space. *)
Fixpoint replace_escaped_spaces (s : string) : string :=
  match s with
  | EmptyString => EmptyString
  | String c s' =>
      match s' with
      | String d s'' =>
          if (Ascii.eqb c "\" && Ascii.eqb d " ")%bool
          then String " " (replace_escaped_spaces s'')
          else String c (replace_escaped_spaces s')
      | EmptyString => String c EmptyString
      end
  end.

(** ** Global functions *)

Definition byte (c : ascii) : Z := Z.of_nat (nat_of_ascii c).

(** The white space and line terminators of the ASCII range: tab, line
    feed, vertical tab, form feed, carriage return and space. *)
Definition is_white_space (c : ascii) : bool :=
  let n := Z.of_nat (nat_of_ascii c) in
  ((9 <=? n) && (n <=? 13) || (n =? 32))%bool.

(** Those of two bytes: the no-break space U+00A0. *)
Definition is_white_space2 (c1 c2 : ascii) : bool :=
  ((byte c1 =? 194) && (byte c2 =? 160))%bool.

(** Those of three bytes: U+1680, U+2000 to U+200A, the line and
    paragraph separators U+2028 and U+2029, U+202F, U+205F, U+3000 and
    the byte order mark U+FEFF. *)
Definition is_white_space3 (c1 c2 c3 : ascii) : bool :=
  let a := byte c1 in
  let b := byte c2 in
  let c := byte c3 in
  ((a =? 225) && (b =? 154) && (c =? 128)
   || (a =? 226) && (b =? 128)
      && ((128 <=? c) && (c <=? 138) || (c =? 168) || (c =? 169) || (c =? 175))
   || (a =? 226) && (b =? 129) && (c =? 159)
   || (a =? 227) && (b =? 128) && (c =? 128)
   || (a =? 239) && (b =? 187) && (c =? 191))%bool.

(** The string without its leading white space. *)
Fixpoint trim_start (s : string) : string :=
  match s with
  | String c1 s1 =>
      if is_white_space c1 then trim_start s1
      else
        match s1 with
        | String c2 s2 =>
            if is_white_space2 c1 c2 then trim_start s2
            else
              match s2 with
              | String c3 s3 =>
                  if is_white_space3 c1 c2 c3 then trim_start s3 else s
              | EmptyString => s
              end
        | EmptyString => s
        end
  | EmptyString => s
  end.

(** The value of a character as a digit: 0-9, then a-z or A-Z for 10-35. *)
Definition digit_value (c : ascii) : option Z :=
  let n := Z.of_nat (nat_of_ascii c) in
  if ((48 <=? n) && (n <=? 57))%bool then Some (n - 48)
  else if ((97 <=? n) && (n <=? 122))%bool then Some (n - 97 + 10)
  else if ((65 <=? n) && (n <=? 90))%bool then Some (n - 65 + 10)
  else None.

(** The value of the longest prefix of [s] made of digits of radix [r];
    [acc] is [None] until a digit has been read. *)
Fixpoint digits_prefix (r : Z) (s : string) (acc : option Z) : option Z :=
  match s with
  | EmptyString => acc
  | String c s' =>
      match digit_value c with
      | Some d =>
          if d <? r then digits_prefix r s' (Some (r * default 0 acc + d))
          else acc
      | None => acc
      end
  end.

(** The string starts with [0x] or [0X]. *)
Definition has_hex_prefix (s : string) : bool :=
  match s with
  | String "0" (String "x" _) | String "0" (String "X" _) => true
  | _ => false
  end.

(** One leading sign, and the rest of the string. *)
Definition split_sign (s : string) : Z * string :=
  match s with
  | String c s' =>
      if Ascii.eqb c "-" then (-1, s')
      else if Ascii.eqb c "+" then (1, s')
      else (1, s)
  | EmptyString => (1, s)
  end.

(** [parseInt(v, radix)]: the argument is converted to a string, leading
    white space and one sign are dropped and the longest prefix of digits
    is read; [NaN] when there is none. A hexadecimal prefix is dropped
    only for the radix 16 or an unspecified radix. The result is the
    number nearest to the integer read. *)
Definition parseInt (v : value) (radix : Z) : number :=
  let '(sign, s) := split_sign (trim_start (ToString v)) in
  if ((radix =? 0) || (2 <=? radix) && (radix <=? 36))%bool then
    let strip := (((radix =? 0) || (radix =? 16)) && has_hex_prefix s)%bool in
    let r := if strip then 16 else if radix =? 0 then 10 else radix in
    let s := if strip then String.substring 2 (String.length s - 2) s else s in
    match digits_prefix r s None with
    | None => NaN
    | Some m => round_double (sign * m)
    end
  else NaN.

Section Number.
(** The engine's conversion of a string to a number, a built-in that
    the command-line check relies on only through [isNaN]. *)
Variable StringToNumber : string -> number.

(** [Number(v)] *)
Definition Number (v : value) : number :=
  match v with
  | VUndef => NaN
  | VNull => Int 0
  | VBool true => Int 1
  | VBool false => Int 0
  | VNum n => n
  | VStr s => StringToNumber s
  | VArr _ => StringToNumber (ToString v)
  | VEntry _ | VBuiltin _ => NaN
  end.
End Number.

(** ** Objects *)

(** An object is a finite map from its own property names to values. *)
Abbreviation obj := (gmap string value).

(** [o.k] on an object without inherited property of that name. *)
Definition get (o : obj) (k : string) : value := default VUndef (o !! k).

(** The method [Object.prototype.hasOwnProperty] applied to [o] and
    [k]: [k] is an own property of [o]. *)
Definition hasOwnProperty (o : obj) (k : string) : bool :=
  match o !! k with Some _ => true | None => false end.

(** The value is the method [Object.prototype.hasOwnProperty]. *)
Definition is_hasOwnProperty (v : value) : bool :=
  match v with
  | VBuiltin f => String.eqb f "hasOwnProperty"
  | _ => false
  end.

(** What [o.hasOwnProperty] finds: the inherited method, unless an own
    property of that name hides it; the call then goes to the value of
    that property, and throws when that cannot be called. A function of
    the caller's cannot be expressed in [value]; a member of a built-in
    prototype other than the method itself, held under this name, is
    not told apart from a value that cannot be called. *)
Definition own_method (o : obj) : exc unit :=
  match o !! "hasOwnProperty" with
  | None => Ret tt
  | Some v =>
      if is_hasOwnProperty v then Ret tt
      else Throw (TypeError "options.hasOwnProperty is not a function")
  end.

(** [o.hasOwnProperty(k)] *)
Definition hasOwnProperty_call (o : obj) (k : string) : exc bool :=
  let! _ := own_method o in Ret (hasOwnProperty o k).

(** The value of [o.hasOwnProperty(k) ? o.k : d] when the call returns. *)
Definition own_or (o : obj) (k : string) (d : value) : value :=
  if hasOwnProperty o k then get o k else d.

(** ** The FORMATS table *)

Definition FORMATS : gmap string Format.entry :=
  list_to_map
    [ ("json", Format.mk "json.template" "json" false);
      ("yaml", Format.mk "yaml.template" "yaml" false);
      ("jsonarray", Format.mk "jsonarray.template" "json" false);
      ("pixi.js", Format.mk "json.template" "json" true);
      ("starling", Format.mk "starling.template" "xml" true);
      ("sparrow", Format.mk "starling.template" "xml" true);
      ("easel.js", Format.mk "easeljs.template" "json" false);
      ("egret", Format.mk "egret.template" "json" false);
      ("zebkit", Format.mk "zebkit.template" "js" false);
      ("cocos2d", Format.mk "cocos2d.template" "plist" false);
      ("cocos2d-v3", Format.mk "cocos2d-v3.template" "plist" false);
      ("css", Format.mk "css.template" "css" false) ].

(** [FORMATS] is an object literal, so a lookup that misses the table
    still finds what every object inherits from [Object.prototype]. *)
Definition object_prototype_names : list string :=
  [ "constructor"; "hasOwnProperty"; "isPrototypeOf"; "propertyIsEnumerable";
    "toLocaleString"; "toString"; "valueOf"; "__proto__";
    "__defineGetter__"; "__defineSetter__"; "__lookupGetter__";
    "__lookupSetter__" ].

(** [FORMATS[k]] *)
Definition FORMATS_get (k : string) : value :=
  match FORMATS !! k with
  | Some e => VEntry e
  | None =>
      if existsb (String.eqb k) object_prototype_names then VBuiltin k
      else VUndef
  end.

(** [v[0]] *)
Definition get_index0 (v : value) : exc value :=
  match v with
  | VUndef => Throw (TypeError "Cannot read properties of undefined (reading '0')")
  | VNull => Throw (TypeError "Cannot read properties of null (reading '0')")
  | VArr l => Ret (List.hd VUndef l)
  | VStr (String c _) => Ret (VStr (String c EmptyString))
  | _ => Ret VUndef
  end.

(** [v.extension] *)
Definition get_extension (v : value) : exc value :=
  match v with
  | VUndef =>
      Throw (TypeError "Cannot read properties of undefined (reading 'extension')")
  | VNull =>
      Throw (TypeError "Cannot read properties of null (reading 'extension')")
  | VEntry e => Ret (VStr (Format.extension e))
  | _ => Ret VUndef
  end.

(** [v.trim]; a string inherits the method of that name. *)
Definition get_trim (v : value) : exc value :=
  match v with
  | VUndef =>
      Throw (TypeError "Cannot read properties of undefined (reading 'trim')")
  | VNull =>
      Throw (TypeError "Cannot read properties of null (reading 'trim')")
  | VEntry e => Ret (VBool (Format.trim e))
  | VStr _ => Ret (VBuiltin "trim")
  | _ => Ret VUndef
  end.

(** ** The command line *)

(** The defaults of the option table, under every alias. *)
Definition cli_defaults : obj :=
  list_to_map
    [ ("f", VStr "pixi.js"); ("format", VStr "pixi.js");
      ("cf", VStr ""); ("customFormat", VStr "");
      ("n", VNull); ("name", VNull);
      ("p", VStr "export"); ("path", VStr "export");
      ("ext", VStr "png");
      ("fullpath", VBool false);
      ("prefix", VStr "");
      ("trim", VBool false);
      ("square", VBool false);
      ("powerOfTwo", VBool false);
      ("validate", VBool false);
      ("scale", VNull);
      ("fuzz", VNull);
      ("tinify", VNull);
      ("algorithm", VStr "growing-binpacking");
      ("width", VNull);
      ("height", VNull);
      ("padding", VNum (Int 0));
      ("sort", VStr "maxside");
      ("divisibleByTwo", VBool false);
      ("cssOrder", VStr "") ].

(** The parsed arguments: what the command line gives, completed by the
    defaults of the table. *)
Definition argv_of (given : obj) : obj := given ∪ cli_defaults.

Section Check.
Variable StringToNumber : string -> number.

(** The callback given to [check]. *)
Definition check (argv : obj) : exc bool :=
  if (negb (strict_eq_str (get argv "algorithm") "binpacking")
      || (negb (isNaN (Number StringToNumber (get argv "width")))
          && negb (isNaN (Number StringToNumber (get argv "height")))))%bool
  then Ret true
  else Throw (Error "Width and/or height are not defined for binpacking").
End Check.

(** ** State and exceptions

    The driver updates the option object and the file system in place and
    may be left by an exception at several points; what had been updated
    by then stays updated. *)

Definition M (S A : Type) : Type := S -> S * exc A.

Definition m_ret {S A} (a : A) : M S A := fun s => (s, Ret a).

Definition m_bind {S A B} (m : M S A) (k : A -> M S B) : M S B :=
  fun s =>
    match m s with
    | (s', Ret a) => k a s'
    | (s', Throw e) => (s', Throw e)
    end.

Definition m_read {S} : M S S := fun s => (s, Ret s).

Definition m_lift {S A} (e : exc A) : M S A := fun s => (s, e).

Declare Scope m_scope.
Delimit Scope m_scope with M.
Notation "'do!' x ':=' m 'in' k" := (m_bind m (fun x => k))
  (at level 10, x pattern, m at level 100, k at level 200) : m_scope.
Local Open Scope m_scope.

(** [options.k = v] *)
Definition assign (k : string) (v : value) : M obj unit :=
  fun o => (<[k := v]> o, Ret tt).

(** [options.k = options.hasOwnProperty(k) ? options.k : d] *)
Definition default_own (k : string) (d : value) : M obj unit :=
  do! options := m_read in
  do! own := m_lift (hasOwnProperty_call options k) in
  assign k (if own then get options k else d).

(** ** The file system *)

Inductive node :=
| File (content : string)
| Dir.

(** The file system maps absolute paths to nodes. *)
Abbreviation fsys := (gmap string node).

(** [fs.existsSync(p)] *)
Definition existsSync (fs : fsys) (p : string) : bool :=
  match fs !! p with Some _ => true | None => false end.

(** [fs.unlinkSync(p)]: removes a file, throws on a missing path and on
    a directory. *)
Definition unlinkSync (p : string) : M fsys unit :=
  fun fs =>
    match fs !! p with
    | Some (File _) => (delete p fs, Ret tt)
    | Some Dir => (fs, Throw (FsError "EISDIR" p))
    | None => (fs, Throw (FsError "ENOENT" p))
    end.

(** ** The generator's stages and the waterfall *)

(** How a task ends: it passes the arguments of the next task to its
    callback, or an error, or it throws. *)
Inductive completion (A : Type) :=
| Ok (a : A)
| Err (e : error)
| Raise (e : error).
Arguments Ok {A} a.
Arguments Err {A} e.
Arguments Raise {A} e.

(** The five stages, in the order of the waterfall. *)
Inductive stage :=
| TreatImages
| GetImagesSizes
| DetermineCanvasSize
| GenerateImage
| GenerateData.

(** How an invoked stage ended. *)
Inductive ending :=
| Passed
| Failed.

(** The objects [generate] shares with the stages: the file system, the
    array [files] and the object [options]. A stage may change all three
    in place. *)
Record world := World {
  w_fs : fsys;
  w_files : list obj;
  w_options : obj
}.

(** The arguments a task passes on through its callback. *)
Inductive wf_arg :=
| ANone
| AFiles (files : list obj)
| AOptions (options : obj).

Definition task := wf_arg -> world -> world * completion wf_arg.

(** How [generate] ends: an exception escapes, or the caller's callback
    is invoked with an error or with none. *)
Inductive outcome :=
| Threw (e : error)
| Called (err : option error).

(** A run: its outcome, the world it leaves and the stages it invoked,
    in order, each with its ending. *)
Record run := Run {
  r_outcome : outcome;
  r_world : world;
  r_trace : list (stage * ending)
}.

(** [async.waterfall(tasks, callback)]: the tasks run one after the
    other, each receiving what the previous one passed on; the first
    error goes to [callback] and no further task runs. *)
Fixpoint waterfall (tasks : list (stage * task)) (a : wf_arg) (w : world)
    (trace : list (stage * ending)) : run :=
  match tasks with
  | [] => Run (Called None) w trace
  | (s, t) :: rest =>
      match t a w with
      | (w', Ok a') => waterfall rest a' w' (trace ++ [(s, Passed)])
      | (w', Err e) => Run (Called (Some e)) w' (trace ++ [(s, Failed)])
      | (w', Raise e) => Run (Threw e) w' (trace ++ [(s, Failed)])
      end
  end.

(** The stages a run invoked, in order. *)
Definition invoked (r : run) : list stage := List.map fst (r_trace r).

Definition passed (l : list stage) : list (stage * ending) :=
  List.map (fun s => (s, Passed)) l.

(** What the stage passes on becomes the next task's arguments. *)
Definition pass {A} (f : A -> wf_arg) (r : world * completion A)
    : world * completion wf_arg :=
  match r with
  | (w, Ok a) => (w, Ok (f a))
  | (w, Err e) => (w, Err e)
  | (w, Raise e) => (w, Raise e)
  end.

(** A task that is handed other arguments than it declares takes one of
    them for its callback. *)
Definition not_a_function (w : world) : world * completion wf_arg :=
  (w, Raise (TypeError "callback is not a function")).

(** ** The platform and the generator *)

(** The modules [path] and [glob]. The functions of [path] take
    strings; [path_invalid_arg name v] is the text of the [TypeError]
    they throw for an argument [name] whose value [v] is no string. *)
Class Platform := {
  path_sep : string;
  path_resolve : string -> string;
  path_dirname : string -> string;
  path_extname : string -> string;
  path_invalid_arg : string -> value -> string;
  glob_sync : fsys -> string -> list string
}.

(** The module [lib/generator]: each stage receives the files and the
    options, and ends as a task of the waterfall does. *)
Class Generator := {
  treatImages : list obj -> obj -> world -> world * completion unit;
  getImagesSizes : list obj -> obj -> world -> world * completion (list obj);
  determineCanvasSize : list obj -> obj -> world -> world * completion obj;
  generateImage : list obj -> obj -> world -> world * completion unit;
  generateData : list obj -> obj -> world -> world * completion unit
}.

(** ** [generate] *)

Section Generate.
Context {P : Platform} {G : Generator}.

(** [fs.mkdirSync(p)]: creates one directory; throws when the path
    exists already and when its parent is missing or is a file. *)
Definition mkdirSync (p : string) : M fsys unit :=
  fun fs =>
    match fs !! p with
    | Some _ => (fs, Throw (FsError "EEXIST" p))
    | None =>
        match fs !! path_dirname p with
        | Some Dir => (<[p := Dir]> fs, Ret tt)
        | Some (File _) => (fs, Throw (FsError "ENOTDIR" p))
        | None => (fs, Throw (FsError "ENOENT" p))
        end
    end.

(** The argument [name] of a [path] function: a string, or else the
    function throws. *)
Definition string_arg (name : string) (v : value) : exc string :=
  match v with
  | VStr s => Ret s
  | _ => Throw (TypeError (path_invalid_arg name v))
  end.

(** The format block: an array of names becomes the array of their
    table members; otherwise, when a format is given or no custom
    template is, the format becomes a one-element array holding the
    member of that name or else the member [pixi.js]. *)
Definition resolve_format : M obj unit :=
  do! options := m_read in
  match get options "format" with
  | VArr l =>
      assign "format" (VArr (List.map (fun x => FORMATS_get (ToString x)) l))
  | f =>
      if (truthy f || negb (truthy (get options "customFormat")))%bool
      then assign "format"
             (VArr [js_or (FORMATS_get (ToString f)) (FORMATS_get "pixi.js")])
      else m_ret tt
  end.

(** [options.format[0].extension] and [options.format[0].trim] *)
Definition first_format_extension (options : obj) : exc value :=
  let! f0 := get_index0 (get options "format") in get_extension f0.

Definition first_format_trim (options : obj) : exc value :=
  let! f0 := get_index0 (get options "format") in get_trim f0.

(** [options.name = options.name || parentPath.split("/").pop()] where
    [parentPath] is [path.dirname(files[0])] *)
Definition set_name (files : list string) : M obj unit :=
  do! file0 := m_lift (string_arg "path" (match files with
                                          | f :: _ => VStr f
                                          | [] => VUndef
                                          end)) in
  let parentPath := path_dirname file0 in
  do! options := m_read in
  assign "name" (js_or (get options "name") (pop (split "/" parentPath))).

(** [options.path = path.resolve(options.path || "export")] *)
Definition set_path : M obj unit :=
  do! options := m_read in
  do! p := m_lift (string_arg "paths[0]"
                     (js_or (get options "path") (VStr "export"))) in
  assign "path" (VStr (path_resolve p)).

(** [options.extension = options.hasOwnProperty("extension")
      ? options.extension : options.format[0].extension] *)
Definition set_extension : M obj unit :=
  do! options := m_read in
  do! own := m_lift (hasOwnProperty_call options "extension") in
  do! ext := m_lift (if own : bool
                     then Ret (get options "extension")
                     else first_format_extension options) in
  assign "extension" ext.

(** [options.trim = options.hasOwnProperty("trim")
      ? options.trim : options.format[0].trim] *)
Definition set_trim : M obj unit :=
  do! options := m_read in
  do! own := m_lift (hasOwnProperty_call options "trim") in
  do! tr := m_lift (if own : bool
                    then Ret (get options "trim")
                    else first_format_trim options) in
  assign "trim" tr.

(** [options.padding = options.hasOwnProperty("padding")
      ? parseInt(options.padding, 10) : 0] *)
Definition set_padding : M obj unit :=
  do! options := m_read in
  do! own := m_lift (hasOwnProperty_call options "padding") in
  assign "padding"
    (if own : bool
     then VNum (parseInt (get options "padding") 10)
     else VNum (Int 0)).

(** The defaulting block, one assignment per line of the source. *)
Definition resolve_options (files : list string) : M obj unit :=
  do! _ := set_name files in
  do! _ := set_path in
  do! _ := default_own "fullpath" (VBool false) in
  do! _ := default_own "square" (VBool false) in
  do! _ := default_own "powerOfTwo" (VBool false) in
  do! _ := set_extension in
  do! _ := set_trim in
  do! _ := default_own "validate" (VBool false) in
  do! _ := default_own "algorithm" (VStr "growing-binpacking") in
  do! _ := default_own "sort" (VStr "maxside") in
  do! _ := set_padding in
  do! _ := default_own "prefix" (VStr "") in
  do! _ := default_own "divisibleByTwo" (VBool false) in
  default_own "cssOrder" VNull.

(** The name given to a source file. *)
Definition frame_name (options : obj) (item : string) : string :=
  let resolvedItem := path_resolve item in
  if truthy (get options "fullpath")
  then substring item 0 (lastIndexOf item ".")
  else js_concat (get options "prefix")
         (VStr (substring resolvedItem
                  (lastIndexOf resolvedItem path_sep + 1)
                  (lastIndexOf resolvedItem "."))).

(** The object [files.map] builds for the file [item] at [index]. *)
Definition file_object (options : obj) (index : nat) (item : string) : obj :=
  let resolvedItem := path_resolve item in
  list_to_map
    [ ("index", VNum (Int (Z.of_nat index)));
      ("path", VStr resolvedItem);
      ("name", VStr (frame_name options item));
      ("extension", VStr (path_extname resolvedItem)) ].

(** [path.resolve(options.path + "/" + options.name + ext)] *)
Definition spritesheet_path (options : obj) (ext : string) : string :=
  path_resolve
    (ToString (get options "path") ++ "/" ++ ToString (get options "name") ++ ext).

(** The output block: the export directory is made when nothing exists
    at its path; otherwise the image and the JSON file of a previous
    run are removed when they exist. *)
Definition clean_output (options : obj) : M fsys unit :=
  do! fs := m_read in
  if negb (existsSync fs (ToString (get options "path"))) then
    if negb (strict_eq_str (get options "path") "")
    then mkdirSync (ToString (get options "path"))
    else m_ret tt
  else
    let spritesheetPNG := spritesheet_path options ".png" in
    do! _ := (if existsSync fs spritesheetPNG
              then unlinkSync (replace_escaped_spaces spritesheetPNG)
              else m_ret tt) in
    let spritesheetJSON := spritesheet_path options ".json" in
    do! fs := m_read in
    if existsSync fs spritesheetJSON
    then unlinkSync (replace_escaped_spaces spritesheetJSON)
    else m_ret tt.

(** The tasks of the waterfall. The first, second and fifth use the
    variables [files] and [options] of [generate]; the third receives
    its files from the second, the fourth its options from the third. *)
Definition pipeline : list (stage * task) :=
  [ (TreatImages, fun a w =>
       match a with
       | ANone => pass (fun _ => ANone) (treatImages (w_files w) (w_options w) w)
       | _ => not_a_function w
       end);
    (GetImagesSizes, fun a w =>
       match a with
       | ANone => pass AFiles (getImagesSizes (w_files w) (w_options w) w)
       | _ => not_a_function w
       end);
    (DetermineCanvasSize, fun a w =>
       match a with
       | AFiles files => pass AOptions (determineCanvasSize files (w_options w) w)
       | _ => not_a_function w
       end);
    (GenerateImage, fun a w =>
       match a with
       | AOptions options => pass (fun _ => ANone) (generateImage (w_files w) options w)
       | _ => not_a_function w
       end);
    (GenerateData, fun a w =>
       match a with
       | ANone => pass (fun _ => ANone) (generateData (w_files w) (w_options w) w)
       | _ => not_a_function w
       end) ].

(** The options as [generate] leaves them before the files are mapped. *)
Definition prepare_options (files : list string) : M obj unit :=
  do! _ := resolve_format in resolve_options files.

Definition all_stages : list stage := List.map fst pipeline.

Definition no_files : error := Error "no files found...".

(** [generate(dir, options, callback)]. [dir] is the first argument as
    the concatenation of the pattern reads it; [options] is [None] when
    the caller passes none. Until the file objects are built the world
    of the run has no files. *)
Definition generate (dir : string) (options : option obj) (fs : fsys) : run :=
  let options := default ∅ options in
  let files := glob_sync fs (dir ++ "/*." ++ ToString (get options "ext")) in
  if (Z.of_nat (length files) =? 0) then
    Run (Called (Some no_files)) (World fs [] options) []
  else
    match prepare_options files options with
    | (options, Throw e) => Run (Threw e) (World fs [] options) []
    | (options, Ret _) =>
        let files := imap (file_object options) files in
        match clean_output options fs with
        | (fs, Throw e) => Run (Threw e) (World fs files options) []
        | (fs, Ret _) => waterfall pipeline ANone (World fs files options) []
        end
    end.
End Generate.

(** ** An example platform and generator

    Used to run [generate] on concrete inputs. The platform has POSIX
    paths (already normalised) under the working directory [/work] and a
    fixed listing for [glob]. The generator writes the image in its
    fourth stage and the descriptor in its fifth, and each stage fails
    when told to. *)

Module Example.
Definition resolve (p : string) : string :=
  match p with
  | String "/" _ => p
  | _ => "/work/" ++ p
  end.

Definition dirname (p : string) : string :=
  let i := lastIndexOf p "/" in
  if i <? 0 then "." else if i =? 0 then "/" else substring p 0 i.

Definition extname (p : string) : string :=
  let base := substring p (lastIndexOf p "/" + 1) (zlength p) in
  let i := lastIndexOf base "." in
  if i <=? 0 then "" else substring base i (zlength base).

Definition listing (fs : fsys) (pattern : string) : list string :=
  if String.eqb pattern "assets/*.png"
  then ["assets/a.png"; "assets/b.png"]
  else [].

(** The name of an argument, between double quotes. *)
Definition quoted (name : string) : string :=
  String (ascii_of_nat 34) name ++ String (ascii_of_nat 34) EmptyString.

(** What the function says it has received. *)
Definition received (v : value) : string :=
  match v with
  | VUndef => "undefined"
  | VNull => "null"
  | VBool _ => "type boolean (" ++ ToString v ++ ")"
  | VNum _ => "type number (" ++ ToString v ++ ")"
  | VStr s => "type string ('" ++ s ++ "')"
  | VArr _ => "an instance of Array"
  | VEntry _ => "an instance of Object"
  | VBuiltin f =>
      if String.eqb f "__proto__" then "an instance of Object"
      else "function " ++ f
  end.

Definition invalid_arg (name : string) (v : value) : string :=
  "The " ++ quoted name ++ " argument must be of type string. Received "
    ++ received v.

Definition platform : Platform :=
  {| path_sep := "/";
     path_resolve := resolve;
     path_dirname := dirname;
     path_extname := extname;
     path_invalid_arg := invalid_arg;
     glob_sync := listing |}.

Definition write (p : string) (content : string) (w : world) : world :=
  World (<[p := File content]> (w_fs w)) (w_files w) (w_options w).

Definition output (options : obj) (ext : value) : string :=
  ToString (get options "path") ++ "/" ++ ToString (get options "name")
    ++ "." ++ ToString ext.

Definition fails {A} (s : string) : completion A := Err (Error s).

Definition generator (failing : option stage) : Generator :=
  {| treatImages := fun files options w =>
       match failing with
       | Some TreatImages => (w, fails "treatImages")
       | _ => (w, Ok tt)
       end;
     getImagesSizes := fun files options w =>
       match failing with
       | Some GetImagesSizes => (w, fails "getImagesSizes")
       | _ => (w, Ok files)
       end;
     determineCanvasSize := fun files options w =>
       match failing with
       | Some DetermineCanvasSize => (w, fails "determineCanvasSize")
       | _ => (w, Ok options)
       end;
     generateImage := fun files options w =>
       match failing with
       | Some GenerateImage => (w, fails "generateImage")
       | _ => (write (output options (VStr "png")) "atlas" w, Ok tt)
       end;
     generateData := fun files options w =>
       match failing with
       | Some GenerateData => (w, fails "generateData")
       | _ => (write (output options (get options "extension")) "frames" w, Ok tt)
       end |}.

(** A file system with the working directory and the sources. *)
Definition disk : fsys :=
  list_to_map
    [ ("/", Dir); ("/work", Dir); ("/work/assets", Dir);
      ("/work/assets/a.png", File "A"); ("/work/assets/b.png", File "B") ].

Definition run_with (failing : option stage) (dir : string) (options : obj)
    (fs : fsys) : run :=
  @generate platform (generator failing) dir (Some options) fs.
End Example.

(** ** Vocabulary of the properties *)

(** A computation on the option object keeps a property when the object
    it leaves, also by an exception, has it as the object it started on. *)
Definition keeps {A} (k : string) (m : M (gmap string value) A) : Prop :=
  forall o, fst (m o) !! k = o !! k.

(** What holds of the result and the object left when the computation
    returns. *)
Definition wp {A} (m : M (gmap string value) A)
    (Q : A -> gmap string value -> Prop) (o : gmap string value) : Prop :=
  match m o with
  | (o', Ret a) => Q a o'
  | (_, Throw _) => True
  end.

(** The invariant "each property [k] of the list is [x]". *)
Definition has_all (l : list (string * option value))
    (o : gmap string value) : Prop :=
  forall k x, In (k, x) l -> o !! k = x.

(** A computation on the option object ignores a property when it ends
    in the same way, and leaves the same object, whatever the property
    holds, and leaves the property as it is. *)
Definition ignores {A} (k : string) (m : M (gmap string value) A) : Prop :=
  forall v o, m (<[k := v]> o) = (<[k := v]> (fst (m o)), snd (m o)).

(** Two runs that agree in all but, when no file was found, the option
    object, which [generate] then has not touched. *)
Definition same_run (r1 r2 : run) : Prop :=
  r_outcome r1 = r_outcome r2
  /\ r_trace r1 = r_trace r2
  /\ w_fs (r_world r1) = w_fs (r_world r2)
  /\ w_files (r_world r1) = w_files (r_world r2)
  /\ (r1 = r2 \/ r_outcome r1 = Called (Some (Error "no files found..."))).

(** A path holds a file or nothing. *)
Definition file_or_absent (fs : gmap string node) (p : string) : Prop :=
  fs !! p = None \/ exists c, fs !! p = Some (File c).

(** The character [c] occurs in [s]. *)
Fixpoint contains_char (c : ascii) (s : string) : bool :=
  match s with
  | EmptyString => false
  | String x s' => (Ascii.eqb x c || contains_char c s')%bool
  end.

(** The characters 0 to 9, and the strings made of them. *)
Definition is_decimal_digit (c : ascii) : bool :=
  let n := Z.of_nat (nat_of_ascii c) in ((48 <=? n) && (n <=? 57))%bool.

Fixpoint all_decimal_digits (s : string) : bool :=
  match s with
  | EmptyString => true
  | String c s' => (is_decimal_digit c && all_decimal_digits s')%bool
  end.

(** The value of a decimal numeral read from the left, starting from
    [acc]. *)
Fixpoint uint_value (d : Decimal.uint) (acc : Z) : Z :=
  match d with
  | Decimal.Nil => acc
  | Decimal.D0 d => uint_value d (10 * acc)
  | Decimal.D1 d => uint_value d (10 * acc + 1)
  | Decimal.D2 d => uint_value d (10 * acc + 2)
  | Decimal.D3 d => uint_value d (10 * acc + 3)
  | Decimal.D4 d => uint_value d (10 * acc + 4)
  | Decimal.D5 d => uint_value d (10 * acc + 5)
  | Decimal.D6 d => uint_value d (10 * acc + 6)
  | Decimal.D7 d => uint_value d (10 * acc + 7)
  | Decimal.D8 d => uint_value d (10 * acc + 8)
  | Decimal.D9 d => uint_value d (10 * acc + 9)
  end.

(** The opposite of a number. *)
Definition number_opp (n : number) : number :=
  match n with
  | NaN => NaN
  | Inf b => Inf (negb b)
  | Int m => Int (- m)
  end.

(** The option object can go through the defaulting block: its path is
    a string or falsy, its method [hasOwnProperty] can be called, and its
    format is an array that begins with a table member. *)
Definition resolvable (o : gmap string value) : Prop :=
  (exists p, js_or (get o "path") (VStr "export") = VStr p)
  /\ own_method o = Ret tt
  /\ (exists e l, get o "format" = VArr (VEntry e :: l)).

(** The computation returns from every resolvable object, and leaves a
    resolvable one. *)
Definition returns_resolvable (m : M (gmap string value) unit) : Prop :=
  forall o, resolvable o -> exists o', m o = (o', Ret tt) /\ resolvable o'.

(** The first exception of the defaulting block, read off the options
    as they are passed to it: the path is neither falsy nor a string; or
    the method [hasOwnProperty] is hidden by an own property that cannot
    be called; or the extension is not an own property and that of the
    first format cannot be read; or the same for the trim flag. *)
Definition block_error {P : Platform} (o : gmap string value) : option error :=
  match string_arg "paths[0]" (js_or (get o "path") (VStr "export")) with
  | Throw e => Some e
  | Ret _ =>
      match own_method o with
      | Throw e => Some e
      | Ret _ =>
          match (if hasOwnProperty o "extension" then Ret (get o "extension")
                 else first_format_extension o) with
          | Throw e => Some e
          | Ret _ =>
              match (if hasOwnProperty o "trim" then Ret (get o "trim")
                     else first_format_trim o) with
              | Throw e => Some e
              | Ret _ => None
              end
          end
      end
  end.

(** What holds of the way the computation ends, by a result or by an
    exception, and of the object it leaves. *)
Definition wpr {A} (m : M (gmap string value) A)
    (Q : exc A -> gmap string value -> Prop) (o : gmap string value) : Prop :=
  Q (snd (m o)) (fst (m o)).

(** * Properties *)

Local Open Scope list_scope.

(** ** The waterfall *)

(** A waterfall either passes every task, or stops at the first task
    that fails, having passed the ones before it. *)
Lemma waterfall_trace (tasks : list (stage * task)) :
  forall a w tr,
    let r := waterfall tasks a w tr in
    (r_outcome r = Called None /\
     r_trace r = tr ++ passed (List.map fst tasks))
    \/ (r_outcome r <> Called None /\
        exists pre s post,
          List.map fst tasks = pre ++ s :: post /\
          r_trace r = tr ++ passed pre ++ [(s, Failed)]).
Proof.
  induction tasks as [|[s t] rest IH]; intros a w tr; cbn.
  - left. split; [reflexivity | now rewrite app_nil_r].
  - destruct (t a w) as [w' [a' | e | e]] eqn:Ht; cbn.
    + destruct (IH a' w' (tr ++ [(s, Passed)])) as [[Ho Htr] | [Ho Htr]].
      * left. split; [exact Ho |]. rewrite Htr, <- app_assoc. reflexivity.
      * right. split; [exact Ho |].
        destruct Htr as (pre & s' & post & Hsplit & Htr).
        exists (s :: pre), s', post. cbn. split; [now rewrite Hsplit |].
        rewrite Htr, <- app_assoc. reflexivity.
    + right. split; [discriminate |]. now exists [], s, (List.map fst rest).
    + right. split; [discriminate |]. now exists [], s, (List.map fst rest).
Qed.

Section GenerateFacts.
Context {P : Platform} {G : Generator}.

Lemma all_stages_eq :
  all_stages =
  [TreatImages; GetImagesSizes; DetermineCanvasSize; GenerateImage; GenerateData].
Proof. reflexivity. Qed.

(** A run either fails before the waterfall, with no stage invoked, or
    is the waterfall over the prepared world. *)
Lemma generate_cases dir options fs :
  (r_trace (generate dir options fs) = [] /\
   r_outcome (generate dir options fs) <> Called None)
  \/ exists w, generate dir options fs = waterfall pipeline ANone w [].
Proof.
  unfold generate.
  destruct (Z.of_nat _ =? 0); [left; split; [reflexivity | discriminate] |].
  destruct (prepare_options _ _) as [o [[] | e]];
    [| left; split; [reflexivity | discriminate]].
  destruct (clean_output _ _) as [fs' [[] | e]];
    [| left; split; [reflexivity | discriminate]].
  right. eauto.
Qed.

(** A run that ends without error has passed the five stages, in order. *)
Lemma generate_passed_trace dir options fs :
  r_outcome (generate dir options fs) = Called None ->
  r_trace (generate dir options fs) = passed all_stages.
Proof.
  intros Hok.
  destruct (generate_cases dir options fs) as [[_ Hfail] | [w Hw]];
    [contradiction |].
  rewrite Hw in Hok |- *.
  destruct (waterfall_trace pipeline ANone w []) as [[_ Htr] | [Hfail _]];
    [exact Htr | contradiction].
Qed.

(** The trace of a failed run: empty, or the stages before the failing
    one, passed, and then the failing one. *)
Lemma generate_failed_trace dir options fs :
  r_outcome (generate dir options fs) <> Called None ->
  r_trace (generate dir options fs) = []
  \/ exists pre s post,
       all_stages = pre ++ s :: post /\
       r_trace (generate dir options fs) = passed pre ++ [(s, Failed)].
Proof.
  intros Hfail.
  destruct (generate_cases dir options fs) as [[Htr _] | [w Hw]];
    [now left |].
  rewrite Hw in Hfail |- *.
  destruct (waterfall_trace pipeline ANone w []) as [[Ho _] | [_ Htr]];
    [contradiction |].
  right. exact Htr.
Qed.
End GenerateFacts.

(** ** Failure and the later stages *)

(** C1, as amended. The five stages run in the order of the waterfall,
    and a run that fails has invoked no stage after the failing one: its
    trace is empty (the failure came before the waterfall) or consists of
    the stages before the failing one, all passed, and the failing stage.
    So [generateData] is not invoked when an earlier stage fails, and
    [generateImage] is not invoked when one of the first three fails. *)
Theorem generate_failure_stops_later_stages
    {P : Platform} {G : Generator} dir options fs :
  let r := generate dir options fs in
  r_outcome r <> Called None ->
  (r_trace r = []
   \/ exists pre s post,
        [TreatImages; GetImagesSizes; DetermineCanvasSize;
         GenerateImage; GenerateData] = pre ++ s :: post /\
        r_trace r = passed pre ++ [(s, Failed)])
  /\ (forall s, In (s, Failed) (r_trace r) -> s <> GenerateData ->
        ~ In GenerateData (invoked r))
  /\ (forall s, In (s, Failed) (r_trace r) ->
        In s [TreatImages; GetImagesSizes; DetermineCanvasSize] ->
        ~ In GenerateImage (invoked r)).
Proof.
  intros r Hfail. subst r.
  pose proof (generate_failed_trace dir options fs Hfail) as Htrace.
  rewrite all_stages_eq in Htrace.
  split; [exact Htrace |].
  unfold invoked.
  destruct Htrace as [Hnil | (pre & s0 & post & Hsplit & Htr)].
  - rewrite Hnil. split; intros s [].
  - rewrite Htr.
    destruct pre as [|p1 [|p2 [|p3 [|p4 [|p5 [|p6 pre]]]]]];
      cbn in Hsplit; simplify_eq; cbn;
      (split; intros s Hin; intros; intuition congruence).
Qed.

(** A run of the example in which the third stage fails. *)
Lemma generate_failure_stops_later_stages_witness :
  let r := Example.run_with (Some DetermineCanvasSize) "assets"
             {[ "ext" := VStr "png" ]} Example.disk in
  r_outcome r <> Called None
  /\ r_trace r =
       [(TreatImages, Passed); (GetImagesSizes, Passed);
        (DetermineCanvasSize, Failed)]
  /\ ~ In GenerateData (invoked r)
  /\ ~ In GenerateImage (invoked r).
Proof.
  intros r.
  assert (Hfail : r_outcome r <> Called None) by (vm_compute; discriminate).
  destruct (@generate_failure_stops_later_stages
              Example.platform (Example.generator (Some DetermineCanvasSize))
              "assets" (Some {[ "ext" := VStr "png" ]}) Example.disk Hfail)
    as (_ & Hdata & Himage).
  assert (Htr : r_trace r =
                [(TreatImages, Passed); (GetImagesSizes, Passed);
                 (DetermineCanvasSize, Failed)]) by (vm_compute; reflexivity).
  assert (Hin : In (DetermineCanvasSize, Failed) (r_trace r))
    by (rewrite Htr; cbn; tauto).
  split; [exact Hfail |]. split; [exact Htr |]. split.
  - apply (Hdata DetermineCanvasSize Hin). discriminate.
  - apply (Himage DetermineCanvasSize Hin). cbn. tauto.
Defined.

(** C1, as stated, fails: when [generateData] fails, the run ends with a
    fatal error although [generateImage] has been invoked and has written
    the image. *)
Lemma image_written_when_generateData_fails :
  let r := Example.run_with (Some GenerateData) "assets"
             {[ "ext" := VStr "png" ]} Example.disk in
  r_outcome r = Called (Some (Error "generateData"))
  /\ r_trace r =
       [(TreatImages, Passed); (GetImagesSizes, Passed);
        (DetermineCanvasSize, Passed); (GenerateImage, Passed);
        (GenerateData, Failed)]
  /\ invoked r =
       [TreatImages; GetImagesSizes; DetermineCanvasSize; GenerateImage;
        GenerateData]
  /\ w_fs (r_world r) !! "/work/export/assets.png" = Some (File "atlas").
Proof. vm_compute. repeat split. Qed.

(** ** Objects and the option block *)

Lemma get_insert_eq (o : gmap string value) k v : get (<[k := v]> o) k = v.
Proof. unfold get. now rewrite lookup_insert_eq. Qed.

Lemma get_insert_ne (o : gmap string value) k k' v :
  k <> k' -> get (<[k := v]> o) k' = get o k'.
Proof. intros H. unfold get. now rewrite lookup_insert_ne. Qed.

Lemma keeps_ret {A} k (a : A) : keeps k (m_ret a).
Proof. now intros o. Qed.

Lemma keeps_read k : keeps k m_read.
Proof. now intros o. Qed.

Lemma keeps_lift {A} k (e : exc A) : keeps k (m_lift e).
Proof. now intros o. Qed.

Lemma keeps_assign k k' v : k <> k' -> keeps k' (assign k v).
Proof. intros H o. cbn. now rewrite lookup_insert_ne. Qed.

(** The call of [hasOwnProperty] looks at one property of the object
    besides the one it tests. *)
Lemma own_method_lookup (o o1 : gmap string value) :
  o1 !! "hasOwnProperty" = o !! "hasOwnProperty" -> own_method o1 = own_method o.
Proof. unfold own_method. now intros ->. Qed.

Lemma own_method_absent (o : gmap string value) :
  o !! "hasOwnProperty" = None -> own_method o = Ret tt.
Proof. unfold own_method. now intros ->. Qed.

Lemma hasOwnProperty_call_ok (o : gmap string value) k :
  own_method o = Ret tt -> hasOwnProperty_call o k = Ret (hasOwnProperty o k).
Proof. unfold hasOwnProperty_call. now intros ->. Qed.

Lemma hasOwnProperty_call_ret (o : gmap string value) k b :
  hasOwnProperty_call o k = Ret b ->
  b = hasOwnProperty o k /\ own_method o = Ret tt.
Proof.
  unfold hasOwnProperty_call.
  destruct (own_method o) as [[] | e]; cbn; [| discriminate].
  now intros [= <-].
Qed.

Lemma hasOwnProperty_call_throw (o : gmap string value) k e :
  own_method o = Throw e -> hasOwnProperty_call o k = Throw e.
Proof. unfold hasOwnProperty_call. now intros ->. Qed.

Lemma keeps_default_own k k' d : k <> k' -> keeps k' (default_own k d).
Proof.
  intros H o. unfold default_own, m_bind, m_read, m_lift. cbv beta iota.
  destruct (hasOwnProperty_call o k) as [b | e]; cbn; [| reflexivity].
  now rewrite lookup_insert_ne.
Qed.

Lemma default_own_returns k d (o : gmap string value) :
  own_method o = Ret tt ->
  default_own k d o = (<[k := own_or o k d]> o, Ret tt).
Proof.
  intros Hm. unfold default_own, m_bind, m_read, m_lift. cbv beta iota.
  now rewrite (hasOwnProperty_call_ok o k Hm).
Qed.

Lemma keeps_bind {A B} k (m : M (gmap string value) A)
    (f : A -> M (gmap string value) B) :
  keeps k m -> (forall a, keeps k (f a)) -> keeps k (m_bind m f).
Proof.
  intros Hm Hf o. unfold m_bind.
  specialize (Hm o). destruct (m o) as [o1 [a | e]]; cbn in *.
  - now rewrite Hf.
  - exact Hm.
Qed.

Ltac solve_keeps :=
  repeat first
    [ apply keeps_bind; [| intros ?]
    | apply keeps_assign; discriminate
    | apply keeps_default_own; discriminate
    | apply keeps_lift
    | apply keeps_read
    | apply keeps_ret ].

Lemma wp_elim {A} (m : M (gmap string value) A) Q o o' a :
  wp m Q o -> m o = (o', Ret a) -> Q a o'.
Proof. unfold wp. intros H E. now rewrite E in H. Qed.

Lemma wp_bind {A B} (m : M (gmap string value) A)
    (f : A -> M (gmap string value) B) Q o :
  wp m (fun a o1 => wp (f a) Q o1) o -> wp (m_bind m f) Q o.
Proof.
  unfold wp, m_bind. destruct (m o) as [o1 [a | e]]; [| trivial].
  now destruct (f a o1) as [o2 [b | e]].
Qed.

(** A step that keeps an invariant of the object is stepped over. *)
Lemma wp_frame {A B} (I : gmap string value -> Prop)
    (m : M (gmap string value) A) (f : A -> M (gmap string value) B) Q o :
  I o ->
  (forall o0, I o0 -> I (fst (m o0))) ->
  (forall a o1, I o1 -> wp (f a) Q o1) ->
  wp (m_bind m f) Q o.
Proof.
  intros HI Hm Hf. apply wp_bind. unfold wp.
  specialize (Hm o HI). destruct (m o) as [o1 [a | e]]; [| trivial].
  now apply Hf.
Qed.

Lemma wp_keeps {A} (I : gmap string value -> Prop)
    (m : M (gmap string value) A) o :
  I o -> (forall o0, I o0 -> I (fst (m o0))) -> wp m (fun _ o' => I o') o.
Proof.
  intros HI Hm. unfold wp. specialize (Hm o HI).
  now destruct (m o) as [o1 [a | e]].
Qed.

Lemma has_all_keeps {A} l (m : M (gmap string value) A) :
  (forall k x, In (k, x) l -> keeps k m) ->
  forall o0, has_all l o0 -> has_all l (fst (m o0)).
Proof. intros Hk o0 H0 k x Hin. rewrite (Hk k x Hin). now apply H0. Qed.

Lemma has_all_get l o k x :
  has_all l o -> In (k, x) l -> get o k = default VUndef x.
Proof. unfold get. intros H Hin. now rewrite (H k x Hin). Qed.

Lemma has_all_own l o k x :
  has_all l o -> In (k, x) l ->
  hasOwnProperty o k = match x with Some _ => true | None => false end.
Proof. unfold hasOwnProperty. intros H Hin. now rewrite (H k x Hin). Qed.

Lemma wp_conseq {A} (m : M (gmap string value) A) (Q Q' : A -> _ -> Prop) o :
  wp m Q o -> (forall a o', Q a o' -> Q' a o') -> wp m Q' o.
Proof.
  unfold wp. intros H HQ. destruct (m o) as [o1 [a | e]]; [| trivial].
  now apply HQ.
Qed.

Lemma wp_assoc {A B C} (m : M (gmap string value) A)
    (f : A -> M (gmap string value) B) (g : B -> M (gmap string value) C) Q o :
  wp (m_bind m (fun a => m_bind (f a) g)) Q o -> wp (m_bind (m_bind m f) g) Q o.
Proof.
  unfold wp, m_bind. destruct (m o) as [o1 [a | e]]; [| trivial].
  now destruct (f a o1) as [o2 [b | e]].
Qed.

Lemma wp_bind_read {B} (f : gmap string value -> M (gmap string value) B) Q o :
  wp (f o) Q o -> wp (m_bind m_read f) Q o.
Proof. intros H. exact H. Qed.

Lemma wp_bind_lift {A B} (e : exc A) (f : A -> M (gmap string value) B) Q o :
  (forall a, e = Ret a -> wp (f a) Q o) -> wp (m_bind (m_lift e) f) Q o.
Proof.
  intros H. unfold wp, m_bind, m_lift. destruct e as [a | e]; [| trivial].
  now apply H.
Qed.

Lemma wp_bind_assign {B} k v (f : unit -> M (gmap string value) B) Q o :
  wp (f tt) Q (<[k := v]> o) -> wp (m_bind (assign k v) f) Q o.
Proof. intros H. exact H. Qed.

Ltac unfold_steps :=
  unfold set_name, set_path, set_extension, set_trim, set_padding.

(** Steps over a call of [hasOwnProperty] that returns. *)
Ltac own_step :=
  let own := fresh "own" in
  let Hown := fresh "Hown" in
  apply wp_assoc, wp_bind_lift; intros own Hown;
  apply hasOwnProperty_call_ret in Hown as [-> _].

Ltac solve_keeps_all :=
  let Hin := fresh "Hin" in
  intros ? ? Hin; cbn in Hin;
  repeat (destruct Hin as [Hin | Hin];
          [injection Hin as <- <-; unfold_steps; solve_keeps |]);
  destruct Hin.

(** Steps over the first computation of a sequence, keeping what is
    known of the listed properties. *)
Ltac step_over :=
  lazymatch goal with
  | H : has_all ?l ?o |- wp (m_bind _ _) _ ?o =>
      eapply (wp_frame (has_all l));
        [ exact H
        | apply has_all_keeps; solve_keeps_all
        | clear H; intros ? ? H ]
  end.

Ltac finish_over :=
  lazymatch goal with
  | H : has_all ?l ?o |- wp _ _ ?o =>
      eapply wp_conseq;
        [ apply (wp_keeps (has_all l));
            [ exact H | apply has_all_keeps; solve_keeps_all ]
        | clear H; cbn; intros ? ? H ]
  end.

Ltac has_all_intro :=
  let Hin := fresh "Hin" in
  intros ? ? Hin; cbn in Hin;
  repeat (destruct Hin as [Hin | Hin];
          [injection Hin as <- <-;
           first [ reflexivity
                 | apply lookup_insert_eq
                 | rewrite lookup_insert_ne by discriminate ] |]);
  try destruct Hin.

Section OptionBlock.
Context {P : Platform}.

Lemma first_format_extension_format (o o1 : gmap string value) :
  o1 !! "format" = o !! "format" ->
  first_format_extension o1 = first_format_extension o.
Proof. unfold first_format_extension, get. now intros ->. Qed.

Lemma first_format_trim_format (o o1 : gmap string value) :
  o1 !! "format" = o !! "format" ->
  first_format_trim o1 = first_format_trim o.
Proof. unfold first_format_trim, get. now intros ->. Qed.

(** The name is assigned first and kept by every later step, also
    when the block is left by an exception. *)
Lemma resolve_options_name f0 rest o :
  get (fst (resolve_options (f0 :: rest) o)) "name" =
  js_or (get o "name") (pop (split "/" (path_dirname f0))).
Proof.
  unfold resolve_options.
  set (tail := m_bind set_path _).
  assert (Htail : keeps "name" tail)
    by (subst tail; unfold_steps; solve_keeps).
  unfold m_bind at 1. unfold set_name. cbn.
  unfold get at 1. rewrite Htail. now rewrite lookup_insert_eq.
Qed.

(** The padding after the defaulting block. *)
Lemma resolve_options_padding files o :
  wp (resolve_options files)
     (fun _ o' =>
        get o' "padding" =
        if hasOwnProperty o "padding"
        then VNum (parseInt (get o "padding") 10)
        else VNum (Int 0)) o.
Proof.
  assert (H0 : has_all [("padding", o !! "padding")] o) by has_all_intro.
  unfold resolve_options.
  do 10 step_over.
  unfold set_padding.
  apply wp_assoc, wp_bind_read. own_step. apply wp_bind_assign.
  rewrite (has_all_own _ _ "padding" _ H0), (has_all_get _ _ "padding" _ H0)
    by (cbn; tauto).
  change (match o !! "padding" with Some _ => true | None => false end)
    with (hasOwnProperty o "padding").
  change (default VUndef (o !! "padding")) with (get o "padding").
  set (v := if hasOwnProperty o "padding" then _ else _).
  lazymatch goal with
  | |- wp _ _ (<[_ := _]> ?o1) =>
      assert (H1 : has_all [("padding", Some v)] (<["padding" := v]> o1))
        by has_all_intro
  end.
  clear H0. do 2 step_over. finish_over.
  now rewrite (has_all_get _ _ "padding" _ H1) by (cbn; tauto).
Qed.

(** The extension and the trim flag after the defaulting block: the
    caller's own value, or else that of the first format. *)
Lemma resolve_options_extension_trim files o :
  wp (resolve_options files)
     (fun _ o' =>
        (if hasOwnProperty o "extension" then Ret (get o "extension")
         else first_format_extension o) = Ret (get o' "extension")
        /\ (if hasOwnProperty o "trim" then Ret (get o "trim")
            else first_format_trim o) = Ret (get o' "trim")) o.
Proof.
  assert (H0 : has_all [("extension", o !! "extension");
                        ("trim", o !! "trim");
                        ("format", o !! "format")] o) by has_all_intro.
  unfold resolve_options.
  do 5 step_over.
  unfold set_extension.
  apply wp_assoc, wp_bind_read. own_step. apply wp_assoc, wp_bind_lift.
  intros ext Hext. apply wp_bind_assign.
  rewrite (has_all_own _ _ "extension" _ H0),
    (has_all_get _ _ "extension" _ H0) in Hext by (cbn; tauto).
  rewrite (first_format_extension_format o) in Hext
    by (apply H0; cbn; tauto).
  lazymatch goal with
  | |- wp _ _ (<[_ := _]> ?o1) =>
      assert (H1 : has_all [("extension", Some ext);
                            ("trim", o !! "trim");
                            ("format", o !! "format")]
                     (<["extension" := ext]> o1))
        by (has_all_intro; apply H0; cbn; tauto)
  end.
  clear H0. unfold set_trim.
  apply wp_assoc, wp_bind_read. own_step. apply wp_assoc, wp_bind_lift.
  intros tr Htr. apply wp_bind_assign.
  rewrite (has_all_own _ _ "trim" _ H1),
    (has_all_get _ _ "trim" _ H1) in Htr by (cbn; tauto).
  rewrite (first_format_trim_format o) in Htr
    by (apply H1; cbn; tauto).
  lazymatch goal with
  | |- wp _ _ (<[_ := _]> ?o1) =>
      assert (H2 : has_all [("extension", Some ext); ("trim", Some tr)]
                     (<["trim" := tr]> o1))
        by (has_all_intro; apply H1; cbn; tauto)
  end.
  clear H1. do 6 step_over. finish_over.
  rewrite (has_all_get _ _ "extension" _ H2),
    (has_all_get _ _ "trim" _ H2) by (cbn; tauto).
  split; assumption.
Qed.
End OptionBlock.

(** ** The format block *)

Section FormatBlock.
Context {P : Platform}.

Lemma resolve_format_returns o : snd (resolve_format o) = Ret tt.
Proof.
  unfold resolve_format, m_bind, m_read. cbn.
  repeat case_match; reflexivity.
Qed.

(** The format block assigns nothing but the format. *)
Lemma resolve_format_keeps k : k <> "format" -> keeps k resolve_format.
Proof.
  intros Hk o. unfold resolve_format, m_bind, m_read. cbn.
  assert (Hne : "format" <> k) by congruence.
  repeat case_match; cbn; rewrite ?lookup_insert_ne by exact Hne;
    reflexivity.
Qed.

(** A registered name, given alone, becomes the one-element array of
    its table member. *)
Lemma resolve_format_registered (o : gmap string value) f e :
  FORMATS !! f = Some e ->
  resolve_format (<["format" := VStr f]> o) =
  (<["format" := VArr [VEntry e]]> o, Ret tt).
Proof.
  intros Hf. unfold resolve_format, m_bind, m_read. cbv beta iota.
  rewrite get_insert_eq.
  assert (Htruthy : truthy (VStr f) = true).
  { cbn. destruct (String.eqb_spec f ""); [subst; discriminate | reflexivity]. }
  rewrite Htruthy. cbn [orb]. unfold assign.
  rewrite insert_insert_eq.
  unfold FORMATS_get at 1. cbn [ToString]. rewrite Hf. reflexivity.
Qed.

(** A value that is no array and names neither a table member nor an
    inherited one, with no custom template given, becomes the
    one-element array of the member [pixi.js]. *)
Lemma resolve_format_unknown (o : gmap string value) :
  match get o "format" with VArr _ => False | _ => True end ->
  truthy (get o "customFormat") = false ->
  FORMATS !! ToString (get o "format") = None ->
  ~ In (ToString (get o "format")) object_prototype_names ->
  resolve_format o =
  (<["format" := VArr [VEntry (Format.mk "json.template" "json" true)]]> o,
   Ret tt).
Proof.
  intros Harr Hcf Hf Hproto.
  assert (Hget : FORMATS_get (ToString (get o "format")) = VUndef).
  { unfold FORMATS_get. rewrite Hf.
    destruct (existsb _ _) eqn:E; [| reflexivity].
    apply existsb_exists in E as (x & Hin & Hx).
    apply String.eqb_eq in Hx. subst x. contradiction. }
  unfold resolve_format, m_bind, m_read. cbv beta iota.
  rewrite Hcf. cbn [negb]. rewrite orb_true_r.
  destruct (get o "format") eqn:Ef; try contradiction;
    unfold assign; rewrite Hget, ?orb_true_r; reflexivity.
Qed.
End FormatBlock.

(** ** Runs *)

Section Runs.
Context {P : Platform} {G : Generator}.

Lemma generate_default dir options fs :
  generate dir options fs = generate dir (Some (default ∅ options)) fs.
Proof. now destruct options. Qed.

(** Option objects with the same source extension that the format and
    defaulting blocks turn into the same object give the same run. *)
Lemma generate_same_prepared dir (o1 o2 : gmap string value) fs :
  get o1 "ext" = get o2 "ext" ->
  (forall files, prepare_options files o1 = prepare_options files o2) ->
  same_run (generate dir (Some o1) fs) (generate dir (Some o2) fs).
Proof.
  intros Hext Hprep. unfold same_run, generate, default. cbn [from_option id].
  rewrite Hext.
  destruct (Z.of_nat _ =? 0).
  - cbn. repeat split. now right.
  - rewrite Hprep. repeat split. now left.
Qed.

(** C2. With no file matching the extension, [generate] invokes the
    callback with the error "no files found..." and does nothing else:
    no stage is invoked and the file system is as it was. *)
Theorem generate_no_files dir options fs :
  glob_sync fs (dir +:+ "/*." +:+ ToString (get (default ∅ options) "ext")) = [] ->
  generate dir options fs =
  Run (Called (Some (Error "no files found...")))
      (World fs [] (default ∅ options)) [].
Proof. intros Hglob. unfold generate. now rewrite Hglob. Qed.

(** C3, as amended. A format that is no array and names neither a
    table member nor a member inherited from [Object.prototype], with
    no custom template given, raises no error: it resolves to the
    member [pixi.js], and the run is the run for the format [pixi.js]. *)
Theorem unknown_format_falls_back_to_pixi dir options fs :
  let o := default ∅ options in
  match get o "format" with VArr _ => False | _ => True end ->
  truthy (get o "customFormat") = false ->
  FORMATS !! ToString (get o "format") = None ->
  ~ In (ToString (get o "format")) object_prototype_names ->
  resolve_format o =
    (<["format" := VArr [VEntry (Format.mk "json.template" "json" true)]]> o,
     Ret tt)
  /\ FORMATS !! "pixi.js" = Some (Format.mk "json.template" "json" true)
  /\ same_run (generate dir options fs)
              (generate dir (Some (<["format" := VStr "pixi.js"]> o)) fs).
Proof.
  intros o Harr Hcf Hf Hproto.
  pose proof (resolve_format_unknown o Harr Hcf Hf Hproto) as Hres.
  split; [exact Hres |]. split; [reflexivity |].
  rewrite generate_default. fold o.
  apply generate_same_prepared.
  - now rewrite get_insert_ne by discriminate.
  - intros files. unfold prepare_options, m_bind.
    rewrite Hres.
    rewrite (resolve_format_registered o "pixi.js"
               (Format.mk "json.template" "json" true)) by reflexivity.
    reflexivity.
Qed.
End Runs.

(** A directory without images. *)
Lemma generate_no_files_witness :
  Example.run_with None "nothing" {[ "ext" := VStr "png" ]} Example.disk =
  Run (Called (Some (Error "no files found...")))
      (World Example.disk [] {[ "ext" := VStr "png" ]}) [].
Proof.
  exact (@generate_no_files Example.platform (Example.generator None)
           "nothing" (Some {[ "ext" := VStr "png" ]}) Example.disk eq_refl).
Defined.

(** The format [tga] is in no table. *)
Lemma unknown_format_falls_back_to_pixi_witness :
  same_run
    (Example.run_with None "assets"
       {[ "ext" := VStr "png"; "format" := VStr "tga" ]} Example.disk)
    (Example.run_with None "assets"
       (<["format" := VStr "pixi.js"]>
          {[ "ext" := VStr "png"; "format" := VStr "tga" ]}) Example.disk).
Proof.
  refine (proj2 (proj2
    (@unknown_format_falls_back_to_pixi Example.platform (Example.generator None)
       "assets" (Some {[ "ext" := VStr "png"; "format" := VStr "tga" ]})
       Example.disk _ _ _ _))).
  - vm_compute. exact I.
  - vm_compute. reflexivity.
  - vm_compute. reflexivity.
  - vm_compute. intuition discriminate.
Defined.

(** C3, as stated, fails: the format [tga] is in no table and no custom
    template is given, yet the run raises no error and ends with every
    stage passed, on the format [pixi.js]. *)
Lemma unknown_format_runs_as_pixi :
  let o : gmap string value :=
    {[ "ext" := VStr "png"; "format" := VStr "tga" ]} in
  let r := Example.run_with None "assets" o Example.disk in
  FORMATS !! "tga" = None
  /\ get o "customFormat" = VUndef
  /\ r_outcome r = Called None
  /\ invoked r =
       [TreatImages; GetImagesSizes; DetermineCanvasSize; GenerateImage;
        GenerateData]
  /\ get (w_options (r_world r)) "format" =
       VArr [VEntry (Format.mk "json.template" "json" true)].
Proof. vm_compute. repeat split. Qed.

(** ** The command-line check *)

Section CheckFacts.
Variable StringToNumber : string -> number.

(** The check passes exactly when the algorithm is not [binpacking] or
    neither [Number(width)] nor [Number(height)] is [NaN]. *)
Lemma check_passes_iff argv :
  check StringToNumber argv = Ret true <->
  strict_eq_str (get argv "algorithm") "binpacking" = false
  \/ (isNaN (Number StringToNumber (get argv "width")) = false
      /\ isNaN (Number StringToNumber (get argv "height")) = false).
Proof.
  unfold check.
  destruct (strict_eq_str _ _), (isNaN (Number _ (get argv "width"))),
    (isNaN (Number _ (get argv "height"))); cbn;
    intuition discriminate.
Qed.

(** For every other algorithm, width and height are not looked at. *)
Lemma check_other_algorithm argv :
  strict_eq_str (get argv "algorithm") "binpacking" = false ->
  check StringToNumber argv = Ret true.
Proof. intros H. apply check_passes_iff. now left. Qed.

(** A width that is [undefined] is rejected. *)
Lemma check_rejects_undefined_width argv :
  get argv "algorithm" = VStr "binpacking" ->
  get argv "width" = VUndef ->
  check StringToNumber argv =
  Throw (Error "Width and/or height are not defined for binpacking").
Proof. intros Ha Hw. unfold check. now rewrite Ha, Hw. Qed.

(** C4 fails on the code: with the algorithm [binpacking] and neither
    width nor height given, both are the default [null] of the option
    table, [Number(null)] is 0, and the check accepts the invocation. *)
Theorem check_accepts_binpacking_without_size :
  let argv := argv_of {[ "algorithm" := VStr "binpacking" ]} in
  get argv "width" = VNull
  /\ get argv "height" = VNull
  /\ check StringToNumber argv = Ret true.
Proof. repeat split. Qed.
End CheckFacts.

(** ** The output block *)

Section OutputBlock.
Context {P : Platform} {G : Generator}.

(** The directory is made when nothing is at its path and its parent
    is a directory. *)
Lemma clean_output_creates (o : gmap string value) (fs : gmap string node) p :
  get o "path" = VStr p -> p <> "" ->
  fs !! p = None -> fs !! path_dirname p = Some Dir ->
  clean_output o fs = (<[p := Dir]> fs, Ret tt).
Proof.
  intros Hp Hne Hfs Hparent.
  unfold clean_output, m_bind, m_read, existsSync. cbv beta iota.
  rewrite Hp. cbn [ToString strict_eq_str]. rewrite Hfs. cbn [negb].
  destruct (String.eqb_spec p ""); [contradiction |]. cbn [negb].
  unfold mkdirSync. now rewrite Hfs, Hparent.
Qed.

(** Removing a file of a previous run when it exists. *)
Lemma unlink_existing (fs : gmap string node) q :
  file_or_absent fs q -> replace_escaped_spaces q = q ->
  (if existsSync fs q
   then unlinkSync (replace_escaped_spaces q)
   else m_ret tt) fs = (delete q fs, Ret tt).
Proof.
  intros [Habs | [c Hc]] Hq; unfold existsSync, unlinkSync.
  - rewrite Habs. unfold m_ret. now rewrite delete_id.
  - rewrite Hc, Hq, Hc. reflexivity.
Qed.

Lemma clean_output_removes (o : gmap string value) (fs : gmap string node) p :
  get o "path" = VStr p -> is_Some (fs !! p) ->
  let png := spritesheet_path o ".png" in
  let json := spritesheet_path o ".json" in
  replace_escaped_spaces png = png -> replace_escaped_spaces json = json ->
  file_or_absent fs png -> file_or_absent fs json ->
  clean_output o fs = (delete json (delete png fs), Ret tt).
Proof.
  intros Hp [n Hn] png json Hpng Hjson Fpng Fjson.
  unfold clean_output, m_bind at 1, m_read at 1. cbv beta iota.
  unfold existsSync at 1. rewrite Hp. cbn [ToString]. rewrite Hn. cbn [negb].
  fold png json. unfold m_bind at 1.
  rewrite (unlink_existing fs png Fpng Hpng).
  unfold m_bind, m_read. cbv beta iota.
  apply unlink_existing; [| exact Hjson].
  destruct (decide (png = json)) as [<- | Hne].
  - left. apply lookup_delete_eq.
  - unfold file_or_absent. now rewrite lookup_delete_ne.
Qed.

(** C5, as amended. In a run that has found source files and resolved
    its options, with the output path [p]: when nothing exists at [p]
    and its parent is a directory, the stages start on a file system in
    which [p] is a directory; when something exists at [p], they start
    on one from which the files [<name>.png] and [<name>.json] under
    [p] are gone (their paths holding no escaped space, and no
    directory); in both cases no exception is raised before the
    stages. *)
Theorem output_directory_prepared dir options (fs : gmap string node)
    files (o : gmap string value) p :
  glob_sync fs (dir +:+ "/*." +:+ ToString (get (default ∅ options) "ext"))
    = files ->
  files <> [] ->
  prepare_options files (default ∅ options) = (o, Ret tt) ->
  get o "path" = VStr p ->
  let png := spritesheet_path o ".png" in
  let json := spritesheet_path o ".json" in
  (p <> "" -> fs !! p = None -> fs !! path_dirname p = Some Dir ->
   generate dir options fs =
   waterfall pipeline ANone
     (World (<[p := Dir]> fs) (imap (file_object o) files) o) [])
  /\ (is_Some (fs !! p) ->
      replace_escaped_spaces png = png -> replace_escaped_spaces json = json ->
      file_or_absent fs png -> file_or_absent fs json ->
      generate dir options fs =
      waterfall pipeline ANone
        (World (delete json (delete png fs)) (imap (file_object o) files) o) []).
Proof.
  intros Hglob Hfiles Hprep Hp png json.
  assert (Hgen : forall fs',
             clean_output o fs = (fs', Ret tt) ->
             generate dir options fs =
             waterfall pipeline ANone
               (World fs' (imap (file_object o) files) o) []).
  { intros fs' Hclean. unfold generate. rewrite Hglob.
    destruct files as [| f0 rest]; [contradiction |].
    cbn [length Z.of_nat Z.eqb]. rewrite Hprep, Hclean. reflexivity. }
  split.
  - intros Hne Hfs Hparent. apply Hgen.
    now apply clean_output_creates.
  - intros Hex Hpng Hjson Fpng Fjson. apply Hgen.
    now apply (clean_output_removes o fs p).
Qed.
End OutputBlock.

(** The export directory of the example does not exist at first; in the
    second run it holds the files of a previous run. *)
Lemma output_directory_prepared_witness :
  let files := ["assets/a.png"; "assets/b.png"] in
  let options : gmap string value := {[ "ext" := VStr "png" ]} in
  let o := fst (@prepare_options Example.platform files options) in
  let old : gmap string node :=
    <["/work/export/assets.json" := File "old frames"]>
      (<["/work/export/assets.png" := File "old atlas"]>
         (<["/work/export" := Dir]> Example.disk)) in
  Example.run_with None "assets" options Example.disk =
    @waterfall (@pipeline (Example.generator None)) ANone
      (World (<["/work/export" := Dir]> Example.disk)
         (imap (@file_object Example.platform o) files) o) []
  /\ Example.run_with None "assets" options old =
       @waterfall (@pipeline (Example.generator None)) ANone
         (World (delete "/work/export/assets.json"
                   (delete "/work/export/assets.png" old))
            (imap (@file_object Example.platform o) files) o) [].
Proof.
  intros files options o old. split.
  - refine (proj1
      (@output_directory_prepared Example.platform (Example.generator None)
         "assets" (Some options) Example.disk files o "/work/export"
         eq_refl _ _ _) _ _ _).
    + discriminate.
    + vm_compute. reflexivity.
    + vm_compute. reflexivity.
    + discriminate.
    + vm_compute. reflexivity.
    + vm_compute. reflexivity.
  - refine (proj2
      (@output_directory_prepared Example.platform (Example.generator None)
         "assets" (Some options) old files o "/work/export"
         eq_refl _ _ _) _ _ _ _ _).
    + discriminate.
    + vm_compute. reflexivity.
    + vm_compute. reflexivity.
    + vm_compute. eauto.
    + vm_compute. reflexivity.
    + vm_compute. reflexivity.
    + right. vm_compute. eauto.
    + right. vm_compute. eauto.
Defined.

(** C5, as stated, fails. A run that finds no source file returns before
    the output block: the export directory, which does not exist, is not
    made. And a missing directory whose parent is missing too is not
    made either: the run ends with the exception of [mkdirSync]. *)
Lemma output_directory_not_created :
  let r1 := Example.run_with None "nothing" {[ "ext" := VStr "png" ]}
              Example.disk in
  let r2 := Example.run_with None "assets"
              {[ "ext" := VStr "png"; "path" := VStr "out/sprites" ]}
              Example.disk in
  (Example.disk !! "/work/export" = None
   /\ r_outcome r1 = Called (Some (Error "no files found..."))
   /\ w_fs (r_world r1) !! "/work/export" = None)
  /\ (Example.disk !! "/work/out/sprites" = None
      /\ r_outcome r2 = Threw (FsError "ENOENT" "/work/out/sprites")
      /\ w_fs (r_world r2) !! "/work/out/sprites" = None).
Proof. vm_compute. repeat split. Qed.

(** ** Strings *)

Lemma append_nil_l (b : string) : "" +:+ b = b.
Proof. reflexivity. Qed.

Lemma append_cons x (a b : string) : String x a +:+ b = String x (a +:+ b).
Proof. reflexivity. Qed.

Lemma append_assoc (a b c : string) : (a +:+ b) +:+ c = a +:+ b +:+ c.
Proof.
  induction a as [| x a IH]; [reflexivity |].
  now rewrite !append_cons, IH.
Qed.

Lemma zlength_cons x s : zlength (String x s) = 1 + zlength s.
Proof. unfold zlength. cbn [String.length]. lia. Qed.

Lemma zlength_app a b : zlength (a +:+ b) = zlength a + zlength b.
Proof.
  induction a as [| x a IH].
  - reflexivity.
  - rewrite append_cons, !zlength_cons, IH. lia.
Qed.

Lemma zlength_nonneg s : 0 <= zlength s.
Proof. unfold zlength. lia. Qed.

Lemma prefix_empty s : String.prefix "" s = true.
Proof. now destruct s. Qed.

Lemma prefix_char c x s :
  String.prefix (String c "") (String x s) = Ascii.eqb x c.
Proof.
  cbn. destruct (ascii_dec c x) as [-> | Hne].
  - now rewrite prefix_empty, Ascii.eqb_refl.
  - symmetry. apply Ascii.eqb_neq. congruence.
Qed.

(** Past the last occurrence of [c] the search finds nothing more. *)
Lemma lastIndexOf_from_absent c s i best :
  contains_char c s = false ->
  lastIndexOf_from s (String c "") i best = best.
Proof.
  revert i best. induction s as [| x s IH]; intros i best Hs.
  - reflexivity.
  - cbn [contains_char] in Hs. apply orb_false_iff in Hs as [Hx Hs].
    cbn [lastIndexOf_from]. rewrite prefix_char, Hx. now apply IH.
Qed.

Lemma lastIndexOf_from_last c a b i best :
  contains_char c b = false ->
  lastIndexOf_from (a +:+ String c b) (String c "") i best = i + zlength a.
Proof.
  revert i best. induction a as [| x a IH]; intros i best Hb.
  - rewrite append_nil_l. cbn [lastIndexOf_from].
    rewrite prefix_char, Ascii.eqb_refl.
    rewrite lastIndexOf_from_absent by exact Hb.
    unfold zlength. cbn. lia.
  - rewrite append_cons. cbn [lastIndexOf_from]. rewrite IH by exact Hb.
    rewrite zlength_cons. lia.
Qed.

(** [lastIndexOf] finds the occurrence of [c] after which there is none. *)
Lemma lastIndexOf_last c a b :
  contains_char c b = false ->
  lastIndexOf (a +:+ String c b) (String c "") = zlength a.
Proof.
  intros Hb. unfold lastIndexOf. now rewrite lastIndexOf_from_last.
Qed.

Lemma string_substring_prefix b c :
  String.substring 0 (String.length b) (b +:+ c) = b.
Proof.
  induction b as [| x b IH].
  - rewrite append_nil_l. now destruct c.
  - rewrite append_cons. cbn. now rewrite IH.
Qed.

Lemma string_substring_middle a b c :
  String.substring (String.length a) (String.length b) (a +:+ b +:+ c) = b.
Proof.
  induction a as [| x a IH].
  - rewrite append_nil_l. apply string_substring_prefix.
  - rewrite append_cons. cbn [String.length String.substring]. exact IH.
Qed.

(** [substring] between the ends of a piece gives the piece. *)
Lemma substring_middle a b c :
  substring (a +:+ b +:+ c) (zlength a) (zlength a + zlength b) = b.
Proof.
  unfold substring, clamp.
  rewrite !zlength_app.
  pose proof (zlength_nonneg a). pose proof (zlength_nonneg b).
  pose proof (zlength_nonneg c).
  replace (Z.min (Z.min (Z.max (zlength a) 0) _) _) with (zlength a) by lia.
  replace (Z.max (Z.min (Z.max (zlength a) 0) _) _ - zlength a)
    with (zlength b) by lia.
  unfold zlength. rewrite !Nat2Z.id. apply string_substring_middle.
Qed.

Lemma contains_char_app c a b :
  contains_char c (a +:+ b) = (contains_char c a || contains_char c b)%bool.
Proof.
  induction a as [| x a IH].
  - reflexivity.
  - rewrite append_cons. cbn [contains_char]. now rewrite IH, orb_assoc.
Qed.

(** ** Frame names *)

Section FrameNames.
Context {P : Platform}.

(** C6, as amended. With [fullpath] the name is the path as given, cut
    before its last dot, and the prefix is not applied. Without it the
    name is the prefix followed by the part of the resolved path
    between its last separator and its last dot. The object built for
    the file carries that name. *)
Theorem frame_name_of_file (o : gmap string value) item :
  (truthy (get o "fullpath") = true ->
   forall stem ext,
     item = stem +:+ "." +:+ ext -> contains_char "." ext = false ->
     frame_name o item = stem)
  /\ (truthy (get o "fullpath") = false ->
      forall c d base ext,
        path_sep = String c "" ->
        path_resolve item = d +:+ String c (base +:+ "." +:+ ext) ->
        contains_char c (base +:+ "." +:+ ext) = false ->
        contains_char "." ext = false ->
        frame_name o item = ToString (get o "prefix") +:+ base)
  /\ (forall index,
        get (file_object o index item) "name" = VStr (frame_name o item)).
Proof.
  split; [| split].
  - intros Hfull stem ext -> Hext. unfold frame_name. rewrite Hfull.
    change ("." +:+ ext) with (String "." ext).
    rewrite lastIndexOf_last by exact Hext.
    exact (substring_middle "" stem (String "." ext)).
  - intros Hfull c d base ext Hsep Hres Hc Hext. unfold frame_name.
    rewrite Hfull, Hsep, Hres.
    rewrite lastIndexOf_last by exact Hc.
    change (base +:+ "." +:+ ext) with (base +:+ String "." ext).
    replace (d +:+ String c (base +:+ String "." ext))
      with ((d +:+ String c base) +:+ String "." ext)
      by (rewrite append_assoc; reflexivity).
    rewrite lastIndexOf_last by exact Hext.
    unfold js_concat. cbn [ToString]. f_equal.
    replace ((d +:+ String c base) +:+ String "." ext)
      with ((d +:+ String c "") +:+ base +:+ String "." ext)
      by (rewrite !append_assoc; reflexivity).
    replace (zlength d + 1) with (zlength (d +:+ String c ""))
      by (rewrite zlength_app; reflexivity).
    replace (zlength (d +:+ String c base))
      with (zlength (d +:+ String c "") + zlength base).
    + apply substring_middle.
    + rewrite !zlength_app, !zlength_cons. unfold zlength. cbn. lia.
  - intros index. reflexivity.
Qed.
End FrameNames.

(** A prefixed base name, and a full path. *)
Lemma frame_name_of_file_witness :
  @frame_name Example.platform
    {[ "fullpath" := VBool true; "prefix" := VStr "p_" ]} "assets/a.png"
    = "assets/a"
  /\ @frame_name Example.platform
       {[ "fullpath" := VBool false; "prefix" := VStr "p_" ]} "assets/a.png"
     = "p_a".
Proof.
  split.
  - refine (proj1 (@frame_name_of_file Example.platform
                     {[ "fullpath" := VBool true; "prefix" := VStr "p_" ]}
                     "assets/a.png") _ "assets/a" "png" _ _);
      reflexivity.
  - refine (proj1 (proj2 (@frame_name_of_file Example.platform
                     {[ "fullpath" := VBool false; "prefix" := VStr "p_" ]}
                     "assets/a.png")) _ "/"%char "/work/assets" "a" "png" _ _ _ _);
      reflexivity.
Defined.

(** C6, as stated, fails: with [fullpath] the prefix is not applied. *)
Lemma fullpath_name_has_no_prefix :
  let o : gmap string value :=
    {[ "fullpath" := VBool true; "prefix" := VStr "p_" ]} in
  get o "prefix" = VStr "p_"
  /\ @frame_name Example.platform o "assets/a.png" = "assets/a"
  /\ @frame_name Example.platform o "assets/a.png" <> "p_assets/a".
Proof. vm_compute. repeat split. discriminate. Qed.

(** ** The default name *)

Lemma split_no_sep c b : contains_char c b = false -> split c b = [b].
Proof.
  induction b as [| x b IH]; intros Hb.
  - reflexivity.
  - cbn [contains_char] in Hb. apply orb_false_iff in Hb as [Hx Hb].
    cbn [split]. rewrite Hx, IH by exact Hb. reflexivity.
Qed.

(** The last piece of a split is what follows the last separator. *)
Lemma split_last c d b :
  contains_char c b = false ->
  exists p ps, split c (d +:+ String c b) = (p :: ps) ++ [b].
Proof.
  intros Hb. induction d as [| x d (p & ps & IH)].
  - rewrite append_nil_l. cbn [split]. rewrite Ascii.eqb_refl.
    rewrite split_no_sep by exact Hb. now exists "", [].
  - rewrite append_cons. cbn [split]. rewrite IH.
    destruct (Ascii.eqb x c).
    + now exists "", (p :: ps).
    + now exists (String x p), ps.
Qed.

Lemma pop_last init b : pop (init ++ [b]) = VStr b.
Proof. unfold pop. now rewrite rev_app_distr. Qed.

Lemma pop_split_base_name c d b :
  contains_char c b = false ->
  pop (split c (d +:+ String c b)) = VStr b.
Proof.
  intros Hb. destruct (split_last c d b Hb) as (p & ps & ->).
  apply pop_last.
Qed.

Section DefaultName.
Context {P : Platform}.

Lemma prepare_options_name f0 rest (o : gmap string value) :
  get (fst (prepare_options (f0 :: rest) o)) "name" =
  js_or (get o "name") (pop (split "/" (path_dirname f0))).
Proof.
  unfold prepare_options, m_bind.
  pose proof (resolve_format_returns o) as Hret.
  pose proof (resolve_format_keeps "name" ltac:(discriminate) o) as Hkeep.
  destruct (resolve_format o) as [o1 [[] | e]]; cbn in Hret, Hkeep;
    [| discriminate].
  rewrite resolve_options_name. unfold get. now rewrite Hkeep.
Qed.

(** C7. When the caller gives no name (none, or a falsy one), the name
    is the last piece of the directory of the first source file, split
    at the slashes: the base name [b] of a directory [d/b], or the
    directory itself when it holds no slash. The paths that the output
    block clears are made with that name. *)
Theorem default_name_is_directory_base_name f0 rest
    (o : gmap string value) b :
  truthy (get o "name") = false ->
  contains_char "/" b = false ->
  (path_dirname f0 = b \/ exists d, path_dirname f0 = d +:+ "/" +:+ b) ->
  let o' := fst (prepare_options (f0 :: rest) o) in
  get o' "name" = VStr b
  /\ spritesheet_path o' ".png" =
       path_resolve (ToString (get o' "path") +:+ "/" +:+ b +:+ ".png")
  /\ spritesheet_path o' ".json" =
       path_resolve (ToString (get o' "path") +:+ "/" +:+ b +:+ ".json").
Proof.
  intros Hname Hb Hdir o'.
  assert (Hn : get o' "name" = VStr b).
  { subst o'. rewrite prepare_options_name. unfold js_or. rewrite Hname.
    destruct Hdir as [-> | [d ->]].
    - rewrite split_no_sep by exact Hb. reflexivity.
    - apply pop_split_base_name. exact Hb. }
  split; [exact Hn |].
  unfold spritesheet_path. rewrite Hn. split; reflexivity.
Qed.
End DefaultName.

(** The sources of the example are in [assets]. *)
Lemma default_name_is_directory_base_name_witness :
  get (fst (@prepare_options Example.platform
              ["/work/assets/a.png"; "/work/assets/b.png"]
              {[ "ext" := VStr "png"; "name" := VNull ]})) "name"
  = VStr "assets".
Proof.
  refine (proj1 (@default_name_is_directory_base_name Example.platform
                   "/work/assets/a.png" ["/work/assets/b.png"]
                   {[ "ext" := VStr "png"; "name" := VNull ]} "assets" _ _ _)).
  - reflexivity.
  - reflexivity.
  - right. exists "/work". reflexivity.
Defined.

(** ** Numbers and [parseInt] in base 10 *)

(** An integer of at most 53 bits is a number. *)
Lemma round_double_small z : Z.abs z < 2 ^ 53 -> round_double z = Int z.
Proof.
  intros H. unfold round_double.
  destruct (Z.leb_spec (Z.log2 (Z.abs z) + 1) 53) as [_ | Hbits];
    [reflexivity |].
  exfalso. destruct (Z.eq_dec (Z.abs z) 0) as [E | E].
  - rewrite E in Hbits. cbn in Hbits. lia.
  - assert (Hpos : 0 < Z.abs z) by lia.
    apply (Z.log2_lt_pow2 _ _ Hpos) in H. lia.
Qed.

(** Rounding keeps the sign, and gives no [NaN]. *)
Lemma round_double_sign z :
  match round_double z with
  | Int m => (0 <= z -> 0 <= m) /\ (z <= 0 -> m <= 0)
  | Inf b => b = (z <? 0)
  | NaN => False
  end.
Proof.
  unfold round_double.
  destruct (Z.leb_spec (Z.log2 (Z.abs z) + 1) 53) as [_ | Hbits]; [lia |].
  cbv zeta.
  set (unit := 2 ^ (Z.log2 (Z.abs z) + 1 - 53)).
  match goal with
  | |- context [if (?c1 || ?c2)%bool then ?x else ?y] =>
      set (q' := if (c1 || c2)%bool then x else y)
  end.
  assert (Hunit : 0 < unit) by (subst unit; apply Z.pow_pos_nonneg; lia).
  assert (Hq : 0 <= Z.abs z / unit) by (apply Z.div_pos; lia).
  assert (Hq' : 0 <= q') by (subst q'; destruct (_ || _)%bool; lia).
  assert (Hm : 0 <= q' * unit) by nia.
  destruct (2 ^ 1024 <=? q' * unit); [reflexivity |].
  split; intros Hz.
  - apply Z.mul_nonneg_nonneg; [apply Z.sgn_nonneg; exact Hz | exact Hm].
  - apply Z.mul_nonpos_nonneg; [apply Z.sgn_nonpos; exact Hz | exact Hm].
Qed.

(** Rounding is symmetric. *)
Lemma round_double_opp z : round_double (- z) = number_opp (round_double z).
Proof.
  unfold round_double. rewrite Z.abs_opp.
  destruct (Z.leb_spec (Z.log2 (Z.abs z) + 1) 53) as [_ | Hbits];
    [reflexivity |].
  cbv zeta.
  assert (Hz : z <> 0) by (intros ->; vm_compute in Hbits; discriminate).
  destruct (2 ^ 1024 <=? _); cbn [number_opp]; f_equal.
  - destruct (Z.ltb_spec (- z) 0), (Z.ltb_spec z 0); cbn; try reflexivity; lia.
  - rewrite Z.sgn_opp. ring.
Qed.

Lemma parseInt_10 v :
  parseInt v 10 =
  match digits_prefix 10 (snd (split_sign (trim_start (ToString v)))) None with
  | None => NaN
  | Some m => round_double (fst (split_sign (trim_start (ToString v))) * m)
  end.
Proof. unfold parseInt. now destruct (split_sign _). Qed.

(** A number is read as it prints. *)
Lemma parseInt_number n : parseInt (VNum n) 10 = parseInt (VStr (number_to_string n)) 10.
Proof. reflexivity. Qed.

Lemma digit_value_nonneg c d : digit_value c = Some d -> 0 <= d.
Proof.
  unfold digit_value.
  repeat case_match; intros [= <-];
    repeat match goal with
           | H : (_ && _)%bool = true |- _ => apply andb_prop in H as [? ?]
           | H : (_ <=? _) = true |- _ => apply Z.leb_le in H
           end; lia.
Qed.

Lemma digits_prefix_nonneg r s acc m :
  0 <= r ->
  match acc with Some a => 0 <= a | None => True end ->
  digits_prefix r s acc = Some m -> 0 <= m.
Proof.
  intros Hr. revert acc. induction s as [| c s IH]; intros acc Hacc.
  - cbn. intros ->. exact Hacc.
  - cbn [digits_prefix].
    destruct (digit_value c) as [d |] eqn:Hd; [| intros ->; exact Hacc].
    destruct (d <? r); [| intros ->; exact Hacc].
    apply digit_value_nonneg in Hd.
    assert (Hnext : 0 <= r * default 0 acc + d)
      by (clear IH; destruct acc as [a |]; cbn in *; nia).
    apply IH. exact Hnext.
Qed.

Lemma digits_prefix_some r s a : exists m, digits_prefix r s (Some a) = Some m.
Proof.
  revert a. induction s as [| c s IH]; intros a; cbn [digits_prefix].
  - eauto.
  - destruct (digit_value c) as [d |]; [| eauto].
    destruct (d <? r); eauto.
Qed.

(** In base 10 the result is [NaN] or the number nearest to the digits
    read, with the sign read. *)
Lemma parseInt_read v :
  parseInt v 10 = NaN
  \/ exists m, 0 <= m /\
       parseInt v 10 =
       round_double (fst (split_sign (trim_start (ToString v))) * m).
Proof.
  rewrite parseInt_10.
  destruct (digits_prefix 10 _ None) as [m |] eqn:Hm; [right | now left].
  apply digits_prefix_nonneg in Hm; [| lia | exact I]. eauto.
Qed.

Lemma split_sign_minus s m :
  0 <= m -> fst (split_sign s) * m < 0 -> exists s', s = String "-" s'.
Proof.
  intros Hm. destruct s as [| c s']; cbn [split_sign fst]; [lia |].
  destruct (Ascii.eqb_spec c "-") as [-> | _]; [eauto |].
  destruct (Ascii.eqb c "+"); cbn [fst]; lia.
Qed.

(** A negative result comes from a minus sign. *)
Lemma parseInt_negative v :
  (exists z, parseInt v 10 = Int z /\ z < 0) \/ parseInt v 10 = Inf true ->
  exists s', trim_start (ToString v) = String "-" s'.
Proof.
  intros Hneg.
  destruct (parseInt_read v) as [Hnan | (m & Hm & Hread)].
  - rewrite Hnan in Hneg. destruct Hneg as [(z & Hz & _) | Hz]; discriminate.
  - apply (split_sign_minus _ m Hm).
    pose proof (round_double_sign
                  (fst (split_sign (trim_start (ToString v))) * m)) as Hs.
    rewrite <- Hread in Hs.
    destruct Hneg as [(z & Hz & Hlt) | Hz]; rewrite Hz in Hs.
    + destruct Hs as [Hs _]. lia.
    + symmetry in Hs. now apply Z.ltb_lt in Hs.
Qed.

Lemma decimal_digit_value c :
  is_decimal_digit c = true ->
  exists d, digit_value c = Some d /\ 0 <= d < 10.
Proof.
  unfold is_decimal_digit, digit_value. intros H. rewrite H.
  apply andb_prop in H as [H1 H2]. apply Z.leb_le in H1, H2.
  eexists. split; [reflexivity | lia].
Qed.

(** A character of the ASCII range that is no white space starts no
    white space. *)
Lemma trim_start_plain c s :
  byte c < 128 -> is_white_space c = false ->
  trim_start (String c s) = String c s.
Proof.
  intros Hb Hw. cbn [trim_start]. rewrite Hw.
  destruct s as [| c2 s2]; [reflexivity |].
  assert (H2 : is_white_space2 c c2 = false).
  { unfold is_white_space2.
    replace (byte c =? 194) with false by (symmetry; apply Z.eqb_neq; lia).
    reflexivity. }
  rewrite H2. destruct s2 as [| c3 s3]; [reflexivity |].
  assert (H3 : is_white_space3 c c2 c3 = false).
  { unfold is_white_space3. cbv zeta.
    replace (byte c =? 225) with false by (symmetry; apply Z.eqb_neq; lia).
    replace (byte c =? 226) with false by (symmetry; apply Z.eqb_neq; lia).
    replace (byte c =? 227) with false by (symmetry; apply Z.eqb_neq; lia).
    replace (byte c =? 239) with false by (symmetry; apply Z.eqb_neq; lia).
    reflexivity. }
  now rewrite H3.
Qed.

Lemma decimal_digit_plain c s :
  is_decimal_digit c = true ->
  trim_start (String c s) = String c s
  /\ split_sign (String c s) = (1, String c s).
Proof.
  unfold is_decimal_digit. intros H.
  apply andb_prop in H as [H1 H2]. apply Z.leb_le in H1, H2.
  assert (Hw : is_white_space c = false).
  { unfold is_white_space. apply orb_false_iff. split.
    - apply andb_false_iff. right. apply Z.leb_gt. lia.
    - apply Z.eqb_neq. lia. }
  assert (Hm : Ascii.eqb c "-" = false).
  { apply Ascii.eqb_neq. intros ->. vm_compute in H1. now apply H1. }
  assert (Hp : Ascii.eqb c "+" = false).
  { apply Ascii.eqb_neq. intros ->. vm_compute in H1. now apply H1. }
  split.
  - apply trim_start_plain; [unfold byte; lia | exact Hw].
  - cbn [split_sign]. now rewrite Hm, Hp.
Qed.

(** A string of decimal digits is read as a non-negative integer, or,
    from some 309 digits on, as the infinity. *)
Lemma parseInt_digits s :
  s <> "" -> all_decimal_digits s = true ->
  (exists z, 0 <= z /\ parseInt (VStr s) 10 = Int z)
  \/ parseInt (VStr s) 10 = Inf false.
Proof.
  destruct s as [| c s]; [congruence |]. intros _ Hs.
  cbn [all_decimal_digits] in Hs. apply andb_prop in Hs as [Hc _].
  rewrite parseInt_10. cbn [ToString].
  destruct (decimal_digit_plain c s Hc) as [-> ->]. cbn [fst snd].
  destruct (decimal_digit_value c Hc) as (d & Hd & Hrange).
  cbn [digits_prefix]. rewrite Hd.
  destruct (Z.ltb_spec d 10); [| lia].
  destruct (digits_prefix_some 10 s (10 * default 0 None + d)) as [m Hm].
  rewrite Hm.
  apply digits_prefix_nonneg in Hm; [| lia | cbn; lia].
  pose proof (round_double_sign (1 * m)) as Hsign.
  destruct (round_double (1 * m)) as [| b | z].
  - destruct Hsign.
  - right. subst b. f_equal. apply Z.ltb_ge. lia.
  - left. exists z. split; [| reflexivity]. apply Hsign. lia.
Qed.

Ltac eval_digit :=
  lazymatch goal with
  | |- context [digit_value ?c] =>
      let v := eval vm_compute in (digit_value c) in
      change (digit_value c) with v; cbv beta iota;
      lazymatch goal with
      | |- context [?d <? 10] =>
          let b := eval vm_compute in (d <? 10) in
          change (d <? 10) with b; cbv beta iota
      end
  end.

Lemma digits_prefix_uint d a :
  digits_prefix 10 (NilEmpty.string_of_uint d) (Some a) = Some (uint_value d a).
Proof.
  revert a. induction d; intros a;
    cbn [NilEmpty.string_of_uint digits_prefix uint_value];
    try reflexivity; eval_digit; rewrite IHd; cbn [default from_option id];
    f_equal; f_equal; lia.
Qed.

Lemma digits_prefix_uint_start d :
  d <> Decimal.Nil ->
  digits_prefix 10 (NilEmpty.string_of_uint d) None = Some (uint_value d 0).
Proof.
  destruct d; intros Hd; try congruence;
    cbn [NilEmpty.string_of_uint digits_prefix uint_value];
    eval_digit; rewrite digits_prefix_uint; reflexivity.
Qed.

Lemma uint_value_of_uint_acc d acc :
  Z.pos (Pos.of_uint_acc d acc) = uint_value d (Z.pos acc).
Proof.
  revert acc. induction d; intros acc; cbn [Pos.of_uint_acc uint_value];
    try reflexivity; rewrite IHd; f_equal; lia.
Qed.

Lemma uint_value_of_uint d : Z.of_N (Pos.of_uint d) = uint_value d 0.
Proof.
  induction d; cbn [Pos.of_uint uint_value Z.of_N]; try reflexivity;
    try exact IHd; rewrite uint_value_of_uint_acc; reflexivity.
Qed.

Lemma uint_string_plain d :
  d <> Decimal.Nil ->
  NilZero.string_of_uint d = NilEmpty.string_of_uint d
  /\ trim_start (NilEmpty.string_of_uint d) = NilEmpty.string_of_uint d
  /\ split_sign (NilEmpty.string_of_uint d) = (1, NilEmpty.string_of_uint d).
Proof.
  destruct d; intros Hd; try congruence;
    (split; [reflexivity |]); (split; [| reflexivity]);
    cbn [NilEmpty.string_of_uint]; apply trim_start_plain;
    vm_compute; reflexivity.
Qed.

Lemma minus_string_sign s :
  split_sign (trim_start (String "-" s)) = (-1, s).
Proof.
  rewrite trim_start_plain by (vm_compute; reflexivity). reflexivity.
Qed.

(** The decimal digits of a non-negative integer are read back as that
    integer, and with a minus sign before them as its opposite. *)
Lemma decimal_read x :
  0 <= x ->
  parseInt (VStr (decimal x)) 10 = round_double x
  /\ parseInt (VStr (String "-" (decimal x))) 10 = round_double (- x).
Proof.
  intros Hx. rewrite !parseInt_10. cbn [ToString]. rewrite minus_string_sign.
  unfold decimal. destruct x as [| p | p]; [split; reflexivity | | lia].
  cbn [Z.to_int NilZero.string_of_int].
  destruct (uint_string_plain (Pos.to_uint p)) as (-> & -> & ->);
    [apply DecimalPos.Unsigned.to_uint_nonnil |].
  cbn [fst snd].
  rewrite digits_prefix_uint_start
    by apply DecimalPos.Unsigned.to_uint_nonnil.
  rewrite <- uint_value_of_uint, DecimalPos.Unsigned.of_to.
  split; f_equal; lia.
Qed.

Lemma decimal_negative x : x < 0 -> decimal x = String "-" (decimal (- x)).
Proof. destruct x as [| p | p]; intros Hx; [lia | lia | reflexivity]. Qed.

(** The shortest digits of a number, written out, are read back as that
    number. *)
Lemma shortest_digits_spec fuel k nd a s k' :
  0 <= a ->
  shortest_digits fuel k nd a = Some (s, k') ->
  0 <= s * 10 ^ (nd - k') /\ round_double (s * 10 ^ (nd - k')) = Int a.
Proof.
  intros Ha. revert k. induction fuel as [| fuel IH]; intros k;
    cbn [shortest_digits]; [discriminate |].
  cbv zeta.
  set (scale := 10 ^ (nd - k)).
  set (lo := a / scale).
  set (lo_first := (_ || _)%bool).
  assert (Hscale : 0 <= scale) by (subst scale; apply Z.pow_nonneg; lia).
  assert (Hlo : 0 <= lo).
  { subst lo. destruct (Z.eq_dec scale 0) as [-> | Hne].
    - now rewrite Z.div_0_r.
    - apply Z.div_pos; lia. }
  assert (Hgives : forall s0,
             0 <= s0 ->
             match round_double (s0 * scale) with
             | Int m => m =? a
             | _ => false
             end = true ->
             0 <= s0 * scale /\ round_double (s0 * scale) = Int a).
  { intros s0 Hs0 H. split; [nia |].
    destruct (round_double (s0 * scale)) as [| b | m]; try discriminate.
    apply Z.eqb_eq in H. now subst m. }
  destruct (match round_double ((if lo_first then lo else lo + 1) * scale) with
            | Int m => m =? a
            | _ => false
            end) eqn:E1.
  { intros [= <- <-]. apply Hgives; [destruct lo_first; lia | exact E1]. }
  destruct (match round_double ((if lo_first then lo + 1 else lo) * scale) with
            | Int m => m =? a
            | _ => false
            end) eqn:E2.
  { intros [= <- <-]. apply Hgives; [destruct lo_first; lia | exact E2]. }
  apply IH.
Qed.

(** A number below 10^21 in magnitude, printed and read back, is the
    same number. *)
Lemma parseInt_integer z :
  round_double z = Int z -> Z.abs z < 10 ^ 21 ->
  parseInt (VNum (Int z)) 10 = Int z.
Proof.
  intros Hdouble Hsmall. rewrite parseInt_number. cbn [number_to_string].
  assert (Hread : forall y,
             0 <= y -> round_double y = Int (Z.abs z) ->
             parseInt (VStr ((if z <? 0 then "-" else "") +:+ decimal y)) 10
             = Int z).
  { intros y Hy Hround.
    destruct (decimal_read y Hy) as [Hpos Hneg].
    destruct (Z.ltb_spec z 0).
    - change ("-" +:+ decimal y) with (String "-" (decimal y)).
      rewrite Hneg, round_double_opp, Hround. cbn [number_opp].
      f_equal. lia.
    - rewrite append_nil_l, Hpos, Hround. f_equal. lia. }
  assert (Habs : round_double (Z.abs z) = Int (Z.abs z)).
  { destruct (Z.abs_spec z) as [[_ ->] | [_ ->]]; [exact Hdouble |].
    now rewrite round_double_opp, Hdouble. }
  destruct (Z.abs z <? 2 ^ 53).
  - destruct (Z.ltb_spec z 0) as [Hneg | Hpos].
    + rewrite decimal_negative by exact Hneg.
      replace (- z) with (Z.abs z) by lia.
      specialize (Hread (Z.abs z) ltac:(lia) Habs).
      destruct (Z.ltb_spec z 0); [exact Hread | lia].
    + specialize (Hread (Z.abs z) ltac:(lia) Habs).
      destruct (Z.ltb_spec z 0); [lia |].
      rewrite append_nil_l in Hread. now replace (Z.abs z) with z in Hread by lia.
  - unfold magnitude_string.
    destruct (shortest_digits 17 1 _ (Z.abs z)) as [[s k] |] eqn:Hs.
    + apply Z.ltb_lt in Hsmall. rewrite Hsmall.
      apply shortest_digits_spec in Hs as [Hy Hround]; [| lia].
      now apply Hread.
    + apply Hread; [lia | exact Habs].
Qed.

(** ** Padding, trim and extension after the two blocks *)

Lemma resolvable_insert (o : gmap string value) k v :
  k <> "path" -> k <> "format" -> k <> "hasOwnProperty" ->
  resolvable o -> resolvable (<[k := v]> o).
Proof.
  intros Hp Hf Hm (Hpath & Hmethod & Hformat). unfold resolvable.
  rewrite !get_insert_ne by exact Hp || exact Hf.
  rewrite (own_method_lookup o) by (now rewrite lookup_insert_ne).
  auto.
Qed.

Lemma returns_assign k v :
  k <> "path" -> k <> "format" -> k <> "hasOwnProperty" ->
  returns_resolvable (assign k v).
Proof.
  intros Hp Hf Hm o Ho. eexists. split; [reflexivity |].
  now apply resolvable_insert.
Qed.

Lemma returns_default_own k d :
  k <> "path" -> k <> "format" -> k <> "hasOwnProperty" ->
  returns_resolvable (default_own k d).
Proof.
  intros Hp Hf Hm o Ho. eexists. split.
  - apply default_own_returns, Ho.
  - now apply resolvable_insert.
Qed.

Lemma returns_bind (m k : M (gmap string value) unit) :
  returns_resolvable m -> returns_resolvable k ->
  returns_resolvable (m_bind m (fun _ => k)).
Proof.
  intros Hm Hk o Ho. unfold m_bind.
  destruct (Hm o Ho) as (o1 & -> & Ho1). now apply Hk.
Qed.

Section Resolved.
Context {P : Platform}.

Lemma returns_set_name f0 rest : returns_resolvable (set_name (f0 :: rest)).
Proof.
  intros o Ho. unfold set_name, m_bind, m_lift, m_read. cbn.
  eexists. split; [reflexivity |].
  apply resolvable_insert; [discriminate | discriminate | discriminate | exact Ho].
Qed.

Lemma returns_set_path : returns_resolvable set_path.
Proof.
  intros o Ho. pose proof Ho as ([p Hp] & Hm & [e [l Hf]]).
  unfold set_path, m_bind, m_lift, m_read. cbv beta iota.
  rewrite Hp. cbn [string_arg]. cbv beta iota. unfold assign.
  eexists. split; [reflexivity |]. split; [| split].
  - rewrite get_insert_eq. unfold js_or. destruct (truthy _); eauto.
  - rewrite (own_method_lookup o) by (now rewrite lookup_insert_ne).
    exact Hm.
  - rewrite get_insert_ne by discriminate. eauto.
Qed.

Lemma returns_set_extension : returns_resolvable set_extension.
Proof.
  intros o Ho. pose proof Ho as (_ & Hm & [e [l Hf]]).
  unfold set_extension, m_bind, m_lift, m_read. cbv beta iota.
  rewrite (hasOwnProperty_call_ok o _ Hm).
  unfold first_format_extension. rewrite Hf. cbn [get_index0 List.hd exc_bind].
  destruct (hasOwnProperty o "extension"); cbn [get_extension];
    cbv beta iota; unfold assign;
    (eexists; split; [reflexivity |]);
    (apply resolvable_insert;
     [discriminate | discriminate | discriminate | exact Ho]).
Qed.

Lemma returns_set_trim : returns_resolvable set_trim.
Proof.
  intros o Ho. pose proof Ho as (_ & Hm & [e [l Hf]]).
  unfold set_trim, m_bind, m_lift, m_read. cbv beta iota.
  rewrite (hasOwnProperty_call_ok o _ Hm).
  unfold first_format_trim. rewrite Hf. cbn [get_index0 List.hd exc_bind].
  destruct (hasOwnProperty o "trim"); cbn [get_trim];
    cbv beta iota; unfold assign;
    (eexists; split; [reflexivity |]);
    (apply resolvable_insert;
     [discriminate | discriminate | discriminate | exact Ho]).
Qed.

Lemma returns_set_padding : returns_resolvable set_padding.
Proof.
  intros o Ho. pose proof Ho as (_ & Hm & _).
  unfold set_padding, m_bind, m_lift, m_read. cbv beta iota.
  rewrite (hasOwnProperty_call_ok o _ Hm). cbv beta iota.
  unfold assign. eexists. split; [reflexivity |].
  apply resolvable_insert;
    [discriminate | discriminate | discriminate | exact Ho].
Qed.

(** The defaulting block returns on a resolvable object. *)
Lemma resolve_options_returns f0 rest :
  returns_resolvable (resolve_options (f0 :: rest)).
Proof.
  unfold resolve_options.
  repeat first
    [ apply returns_bind
    | apply returns_set_name
    | apply returns_set_path
    | apply returns_set_extension
    | apply returns_set_trim
    | apply returns_set_padding
    | apply returns_default_own; discriminate ].
Qed.

Lemma prepare_options_padding files (o : gmap string value) :
  wp (prepare_options files)
     (fun _ o' =>
        get o' "padding" =
        if hasOwnProperty o "padding"
        then VNum (parseInt (get o "padding") 10)
        else VNum (Int 0)) o.
Proof.
  unfold prepare_options, wp, m_bind.
  pose proof (resolve_format_keeps "padding" ltac:(discriminate) o) as Hk.
  destruct (resolve_format o) as [o1 [[] | e]]; [| trivial].
  cbn [fst] in Hk.
  pose proof (resolve_options_padding files o1) as H. unfold wp in H.
  destruct (resolve_options files o1) as [o' [[] | e]]; [| trivial].
  rewrite H. unfold hasOwnProperty, get. now rewrite Hk.
Qed.

Lemma prepare_options_extension_trim files (o : gmap string value) :
  wp (prepare_options files)
     (fun _ o' =>
        (if hasOwnProperty o "extension" then Ret (get o "extension")
         else first_format_extension (fst (resolve_format o)))
        = Ret (get o' "extension")
        /\ (if hasOwnProperty o "trim" then Ret (get o "trim")
            else first_format_trim (fst (resolve_format o)))
           = Ret (get o' "trim")) o.
Proof.
  unfold prepare_options, wp, m_bind.
  pose proof (resolve_format_keeps "extension" ltac:(discriminate) o) as He.
  pose proof (resolve_format_keeps "trim" ltac:(discriminate) o) as Ht.
  destruct (resolve_format o) as [o1 [[] | e]]; [| trivial].
  cbn [fst] in *.
  pose proof (resolve_options_extension_trim files o1) as H. unfold wp in H.
  destruct (resolve_options files o1) as [o' [[] | e]]; [| trivial].
  assert (Hoe : hasOwnProperty o1 "extension" = hasOwnProperty o "extension")
    by (unfold hasOwnProperty; now rewrite He).
  assert (Hge : get o1 "extension" = get o "extension")
    by (unfold get; now rewrite He).
  assert (Hot : hasOwnProperty o1 "trim" = hasOwnProperty o "trim")
    by (unfold hasOwnProperty; now rewrite Ht).
  assert (Hgt : get o1 "trim" = get o "trim")
    by (unfold get; now rewrite Ht).
  rewrite Hoe, Hge, Hot, Hgt in H. exact H.
Qed.
End Resolved.

Section Defaults.
Context {P : Platform}.

(** C9, as amended. For an option object that does not hide the method
    [hasOwnProperty] and whose options resolve, the padding is 0 when
    none is given, and when one is given it is [parseInt(padding, 10)],
    which is not checked against zero: a number below 10^21 in
    magnitude is kept as it is, also when negative; a non-empty string
    of decimal digits gives the nearest number, a non-negative integer
    or the infinity; and a negative result comes from a value whose
    text starts (after white space) with a minus sign. *)
Theorem padding_is_parseInt files (o o' : gmap string value) :
  o !! "hasOwnProperty" = None ->
  prepare_options files o = (o', Ret tt) ->
  (hasOwnProperty o "padding" = false -> get o' "padding" = VNum (Int 0))
  /\ (hasOwnProperty o "padding" = true ->
      get o' "padding" = VNum (parseInt (get o "padding") 10))
  /\ (forall z, get o "padding" = VNum (Int z) ->
        round_double z = Int z -> Z.abs z < 10 ^ 21 ->
        parseInt (get o "padding") 10 = Int z)
  /\ (forall s, get o "padding" = VStr s ->
        s <> "" -> all_decimal_digits s = true ->
        (exists z, 0 <= z /\ parseInt (get o "padding") 10 = Int z)
        \/ parseInt (get o "padding") 10 = Inf false)
  /\ ((exists z, parseInt (get o "padding") 10 = Int z /\ z < 0)
      \/ parseInt (get o "padding") 10 = Inf true ->
      exists s', trim_start (ToString (get o "padding")) = String "-" s').
Proof.
  intros _ Hprep.
  pose proof (wp_elim _ _ _ _ _ (prepare_options_padding files o) Hprep)
    as Hpad. cbv beta in Hpad.
  split; [| split; [| split; [| split]]].
  - intros Hown. now rewrite Hown in Hpad.
  - intros Hown. now rewrite Hown in Hpad.
  - intros z ->. apply parseInt_integer.
  - intros s -> Hs Hdigits. now apply parseInt_digits.
  - apply parseInt_negative.
Qed.

(** The table members with the trim flag set. *)
Lemma FORMATS_trim f e :
  FORMATS !! f = Some e ->
  (Format.trim e = true <-> f = "pixi.js" \/ f = "starling" \/ f = "sparrow").
Proof.
  intros H. unfold FORMATS in H. apply elem_of_list_to_map_2 in H.
  repeat (apply elem_of_cons in H as [H | H];
          [injection H as -> ->; cbn; split;
           [ intros; first [discriminate | tauto]
           | intros [? | [? | ?]]; first [discriminate | reflexivity] ] |]).
  now apply elem_of_nil in H.
Qed.

(** A registered name, alone or first in an array, leaves its table
    member first in the format array. *)
Lemma resolve_format_first (o : gmap string value) f e :
  FORMATS !! f = Some e ->
  (get o "format" = VStr f \/ exists l, get o "format" = VArr (VStr f :: l)) ->
  exists l',
    resolve_format o = (<["format" := VArr (VEntry e :: l')]> o, Ret tt)
    /\ (get o "format" = VStr f -> l' = []).
Proof.
  intros Hf [Hs | [l Hl]].
  - exists []. split; [| reflexivity].
    rewrite <- (resolve_format_registered o f e Hf).
    f_equal. symmetry. apply insert_id.
    unfold get in Hs. destruct (o !! "format"); cbn in Hs; congruence.
  - eexists. split.
    + unfold resolve_format, m_bind, m_read. cbv beta iota.
      rewrite Hl. cbn [List.map ToString]. unfold FORMATS_get at 1.
      rewrite Hf. reflexivity.
    + rewrite Hl. discriminate.
Qed.

(** The defaulting block leaves the format as the format block made
    it. *)
Lemma resolve_options_format files : keeps "format" (resolve_options files).
Proof. unfold resolve_options. unfold_steps. solve_keeps. Qed.

(** With a registered format first, a path that is a string or falsy
    and the method [hasOwnProperty] in place, the two blocks return; the
    format array begins with the table member, and the trim flag and
    the extension that are no own properties are those of the member. *)
Lemma prepare_options_first_format f0 rest (o : gmap string value) f e :
  FORMATS !! f = Some e ->
  (get o "format" = VStr f \/ exists l, get o "format" = VArr (VStr f :: l)) ->
  (exists p, js_or (get o "path") (VStr "export") = VStr p) ->
  own_method o = Ret tt ->
  exists o' l',
    prepare_options (f0 :: rest) o = (o', Ret tt)
    /\ get o' "format" = VArr (VEntry e :: l')
    /\ (get o "format" = VStr f -> l' = [])
    /\ (hasOwnProperty o "trim" = false ->
        get o' "trim" = VBool (Format.trim e))
    /\ (hasOwnProperty o "extension" = false ->
        get o' "extension" = VStr (Format.extension e)).
Proof.
  intros Hf Hformat Hpath Hmethod.
  destruct (resolve_format_first o f e Hf Hformat) as (l' & Hres & Hl').
  set (o1 := <["format" := VArr (VEntry e :: l')]> o) in *.
  assert (Ho1 : resolvable o1).
  { split; [| split].
    - subst o1. now rewrite get_insert_ne by discriminate.
    - subst o1. rewrite (own_method_lookup o);
        [exact Hmethod | now rewrite lookup_insert_ne].
    - subst o1. rewrite get_insert_eq. eauto. }
  destruct (resolve_options_returns f0 rest o1 Ho1) as (o' & Hopt & _).
  assert (Hprep : prepare_options (f0 :: rest) o = (o', Ret tt)).
  { unfold prepare_options, m_bind. now rewrite Hres. }
  exists o', l'. split; [exact Hprep |].
  pose proof (wp_elim _ _ _ _ _
                (prepare_options_extension_trim (f0 :: rest) o) Hprep)
    as [Hext Htrim].
  rewrite Hres in Hext, Htrim. cbn [fst] in Hext, Htrim.
  unfold first_format_extension, first_format_trim in Hext, Htrim.
  pose proof (resolve_options_format (f0 :: rest) o1) as Hkeep.
  rewrite Hopt in Hkeep. cbn [fst] in Hkeep.
  subst o1. rewrite get_insert_eq in Hext, Htrim.
  rewrite lookup_insert_eq in Hkeep.
  cbn [get_index0 List.hd exc_bind get_extension get_trim] in Hext, Htrim.
  split; [| split; [exact Hl' | split]].
  - unfold get. now rewrite Hkeep.
  - intros Hown. rewrite Hown in Htrim. congruence.
  - intros Hown. rewrite Hown in Hext. congruence.
Qed.

(** C10. With a registered format selected (alone, or first in an
    array), a path that is a string or falsy and an option object that
    does not hide the method [hasOwnProperty], the two blocks return,
    and a trim flag the caller has not set is the trim flag of that
    format (true for [pixi.js], [starling] and [sparrow] only), as an
    extension the caller has not set is the extension of that format. *)
Theorem trim_and_extension_default_to_format f0 rest
    (o : gmap string value) f e :
  FORMATS !! f = Some e ->
  (get o "format" = VStr f \/ exists l, get o "format" = VArr (VStr f :: l)) ->
  (exists p, js_or (get o "path") (VStr "export") = VStr p) ->
  o !! "hasOwnProperty" = None ->
  exists o',
    prepare_options (f0 :: rest) o = (o', Ret tt)
    /\ (hasOwnProperty o "trim" = false ->
        get o' "trim" = VBool (Format.trim e))
    /\ (hasOwnProperty o "extension" = false ->
        get o' "extension" = VStr (Format.extension e))
    /\ (Format.trim e = true <->
        f = "pixi.js" \/ f = "starling" \/ f = "sparrow").
Proof.
  intros Hf Hformat Hpath Hmethod.
  destruct (prepare_options_first_format f0 rest o f e Hf Hformat Hpath
              (own_method_absent o Hmethod))
    as (o' & l' & Hprep & _ & _ & Htrim & Hext).
  exists o'. split; [exact Hprep |]. split; [exact Htrim |].
  split; [exact Hext |]. now apply FORMATS_trim.
Qed.
End Defaults.

(** A padding of 4 given as a number, and one of seventeen digits given
    as a string, which is rounded to the nearest number. *)
Lemma padding_is_parseInt_witness :
  let o : gmap string value := {[ "ext" := VStr "png"; "padding" := VNum (Int 4) ]} in
  let o2 : gmap string value :=
    {[ "ext" := VStr "png"; "padding" := VStr "9007199254740993" ]} in
  get (fst (@prepare_options Example.platform ["assets/a.png"] o)) "padding"
  = VNum (Int 4)
  /\ get (fst (@prepare_options Example.platform ["assets/a.png"] o2)) "padding"
     = VNum (Int 9007199254740992).
Proof.
  intros o o2. split.
  - destruct (@padding_is_parseInt Example.platform ["assets/a.png"] o
                (fst (@prepare_options Example.platform ["assets/a.png"] o)))
      as (_ & Hgiven & Hnumber & _).
    + reflexivity.
    + vm_compute. reflexivity.
    + rewrite Hgiven by reflexivity.
      rewrite (Hnumber 4) by (reflexivity || (vm_compute; reflexivity)).
      reflexivity.
  - destruct (@padding_is_parseInt Example.platform ["assets/a.png"] o2
                (fst (@prepare_options Example.platform ["assets/a.png"] o2)))
      as (_ & Hgiven & _).
    + reflexivity.
    + vm_compute. reflexivity.
    + rewrite Hgiven by reflexivity. vm_compute. reflexivity.
Defined.

(** C9, as stated, fails: a negative padding stays negative, and a
    padding that is no number becomes [NaN]. *)
Lemma negative_padding_is_kept :
  let files := ["assets/a.png"] in
  let o1 : gmap string value :=
    {[ "ext" := VStr "png"; "padding" := VNum (Int (-5)) ]} in
  let o2 : gmap string value :=
    {[ "ext" := VStr "png"; "padding" := VStr "wide" ]} in
  (snd (@prepare_options Example.platform files o1) = Ret tt
   /\ get (fst (@prepare_options Example.platform files o1)) "padding"
      = VNum (Int (-5)))
  /\ (snd (@prepare_options Example.platform files o2) = Ret tt
      /\ get (fst (@prepare_options Example.platform files o2)) "padding"
         = VNum NaN).
Proof. vm_compute. repeat split. Qed.

(** The format [starling] with neither trim nor extension set. *)
Lemma trim_and_extension_default_to_format_witness :
  exists o',
    @prepare_options Example.platform ["assets/a.png"]
      {[ "ext" := VStr "png"; "format" := VStr "starling" ]} = (o', Ret tt)
    /\ get o' "trim" = VBool true
    /\ get o' "extension" = VStr "xml".
Proof.
  destruct (@trim_and_extension_default_to_format Example.platform
              "assets/a.png" []
              {[ "ext" := VStr "png"; "format" := VStr "starling" ]}
              "starling" (Format.mk "starling.template" "xml" true))
    as (o' & Hprep & Htrim & Hext & _).
  - reflexivity.
  - left. reflexivity.
  - exists "export". reflexivity.
  - reflexivity.
  - exists o'. split; [exact Hprep |]. split.
    + apply Htrim. reflexivity.
    + apply Hext. reflexivity.
Defined.

(** ** Starling and sparrow *)

Lemma ignores_bind {A B} k (m : M (gmap string value) A)
    (f : A -> M (gmap string value) B) :
  ignores k m -> (forall a, ignores k (f a)) -> ignores k (m_bind m f).
Proof.
  intros Hm Hf v o. unfold m_bind. rewrite (Hm v o).
  destruct (m o) as [o1 [a | e]]; cbn [fst snd]; [apply Hf | reflexivity].
Qed.

Lemma ignores_ret {A} k (a : A) : ignores k (m_ret a).
Proof. now intros v o. Qed.

Lemma ignores_assign k k' x : k <> k' -> ignores k (assign k' x).
Proof.
  intros Hk v o. unfold assign. cbn [fst snd].
  now rewrite insert_insert_ne by congruence.
Qed.

Lemma ignores_lift_bind {A B} k (e : exc A) (f : A -> M (gmap string value) B) :
  (forall a, ignores k (f a)) -> ignores k (m_bind (m_lift e) f).
Proof.
  intros Hf v o. unfold m_bind, m_lift.
  destruct e as [a | e]; [apply Hf | reflexivity].
Qed.

Lemma ignores_read_bind {B} k
    (f : gmap string value -> M (gmap string value) B) :
  (forall v o, f (<[k := v]> o) = f o) ->
  (forall o, ignores k (f o)) ->
  ignores k (m_bind m_read f).
Proof.
  intros Hread Hf v o. unfold m_bind, m_read. rewrite Hread. apply Hf.
Qed.

Lemma hasOwnProperty_insert_ne (o : gmap string value) k k' v :
  k <> k' -> hasOwnProperty (<[k := v]> o) k' = hasOwnProperty o k'.
Proof. intros Hk. unfold hasOwnProperty. now rewrite lookup_insert_ne. Qed.

Lemma hasOwnProperty_call_insert_ne (o : gmap string value) k k' v :
  k <> k' -> k <> "hasOwnProperty" ->
  hasOwnProperty_call (<[k := v]> o) k' = hasOwnProperty_call o k'.
Proof.
  intros Hk Hm. unfold hasOwnProperty_call.
  rewrite (own_method_lookup o) by (now rewrite lookup_insert_ne).
  now rewrite hasOwnProperty_insert_ne.
Qed.

Section Ignored.
Context {P : Platform}.
Variable k : string.
Hypothesis K :
  forall n,
    In n [ "format"; "customFormat"; "name"; "path"; "hasOwnProperty";
           "fullpath"; "square"; "powerOfTwo"; "extension"; "trim";
           "validate"; "algorithm"; "sort"; "padding"; "prefix";
           "divisibleByTwo"; "cssOrder" ] ->
    k <> n.

Ltac other_key := apply K; cbn; tauto.

Ltac same_reads :=
  intros ? ?;
  rewrite ?hasOwnProperty_call_insert_ne, ?get_insert_ne by other_key;
  reflexivity.

Lemma ignores_resolve_format : ignores k resolve_format.
Proof.
  unfold resolve_format. apply ignores_read_bind; [same_reads |].
  intros o. destruct (get o "format");
    try (destruct (_ || _)%bool);
    first [apply ignores_assign; other_key | apply ignores_ret].
Qed.

Lemma ignores_set_name files : ignores k (set_name files).
Proof.
  unfold set_name. apply ignores_lift_bind. intros file0.
  apply ignores_read_bind; [same_reads |].
  intros o. apply ignores_assign. other_key.
Qed.

Lemma ignores_set_path : ignores k set_path.
Proof.
  unfold set_path. apply ignores_read_bind; [same_reads |].
  intros o. apply ignores_lift_bind. intros p.
  apply ignores_assign. other_key.
Qed.

Lemma ignores_default_own k' d :
  k <> k' -> ignores k (default_own k' d).
Proof.
  intros Hk. unfold default_own. apply ignores_read_bind.
  - intros v o.
    rewrite hasOwnProperty_call_insert_ne, get_insert_ne
      by first [exact Hk | other_key].
    reflexivity.
  - intros o. apply ignores_lift_bind. intros own.
    apply ignores_assign. exact Hk.
Qed.

Lemma ignores_set_extension : ignores k set_extension.
Proof.
  unfold set_extension. apply ignores_read_bind.
  - intros v o. unfold first_format_extension.
    rewrite hasOwnProperty_call_insert_ne, !get_insert_ne by other_key.
    reflexivity.
  - intros o. apply ignores_lift_bind. intros own.
    apply ignores_lift_bind. intros ext. apply ignores_assign. other_key.
Qed.

Lemma ignores_set_trim : ignores k set_trim.
Proof.
  unfold set_trim. apply ignores_read_bind.
  - intros v o. unfold first_format_trim.
    rewrite hasOwnProperty_call_insert_ne, !get_insert_ne by other_key.
    reflexivity.
  - intros o. apply ignores_lift_bind. intros own.
    apply ignores_lift_bind. intros tr. apply ignores_assign. other_key.
Qed.

Lemma ignores_set_padding : ignores k set_padding.
Proof.
  unfold set_padding. apply ignores_read_bind; [same_reads |].
  intros o. apply ignores_lift_bind. intros own.
  apply ignores_assign. other_key.
Qed.

(** A property that the two blocks neither read nor assign goes
    through them: the blocks end in the same way with it and without
    it, and leave it as it is. *)
Lemma ignores_prepare_options files : ignores k (prepare_options files).
Proof.
  unfold prepare_options, resolve_options.
  repeat first
    [ apply ignores_bind; [| intros _]
    | apply ignores_resolve_format
    | apply ignores_set_name
    | apply ignores_set_path
    | apply ignores_set_extension
    | apply ignores_set_trim
    | apply ignores_set_padding
    | apply ignores_default_own; other_key ].
Qed.
End Ignored.

Section Starling.
Context {P : Platform} {G : Generator}.

(** A registered name, given alone, is resolved to the one-element
    array of its table member, whichever way the defaulting block
    ends. *)
Lemma prepare_options_registered_format files (o : gmap string value) f e :
  FORMATS !! f = Some e ->
  get (fst (prepare_options files (<["format" := VStr f]> o))) "format"
  = VArr [VEntry e].
Proof.
  intros Hf. unfold prepare_options, m_bind.
  rewrite (resolve_format_registered o f e Hf).
  unfold get. rewrite (resolve_options_format files).
  now rewrite lookup_insert_eq.
Qed.

(** C8. The names [starling] and [sparrow] have the same table member
    (template [starling.template], extension [xml]). For an option
    object that differs in the format only, the object the stages
    receive is the same for both, and so is the whole run. Its format is
    the one-element array of that member, whichever name is given; when
    the options resolve (they do with a path that is a string or falsy
    and no own property hiding [hasOwnProperty]), the extension, when
    the caller has set none, is [xml] for both and the trim flag, when
    the caller has set none, is true for both. Through the command line
    the name is also held by the alias [f]: the options resolve in the
    same way for both names, to objects that differ in that alias and
    in nothing else. *)
Theorem starling_sparrow_same_run dir (o : gmap string value) fs :
  FORMATS_get "starling" = FORMATS_get "sparrow"
  /\ FORMATS_get "starling" =
       VEntry (Format.mk "starling.template" "xml" true)
  /\ (forall files,
        prepare_options files (<["format" := VStr "starling"]> o) =
        prepare_options files (<["format" := VStr "sparrow"]> o))
  /\ same_run (generate dir (Some (<["format" := VStr "starling"]> o)) fs)
              (generate dir (Some (<["format" := VStr "sparrow"]> o)) fs)
  /\ (forall name files,
        name = "starling" \/ name = "sparrow" ->
        get (fst (prepare_options files (<["format" := VStr name]> o)))
          "format"
        = VArr [VEntry (Format.mk "starling.template" "xml" true)])
  /\ (forall name f0 rest,
        name = "starling" \/ name = "sparrow" ->
        (exists p, js_or (get o "path") (VStr "export") = VStr p) ->
        o !! "hasOwnProperty" = None ->
        exists o',
          prepare_options (f0 :: rest) (<["format" := VStr name]> o)
          = (o', Ret tt)
          /\ get o' "format"
             = VArr [VEntry (Format.mk "starling.template" "xml" true)]
          /\ (hasOwnProperty o "extension" = false ->
              get o' "extension" = VStr "xml")
          /\ (hasOwnProperty o "trim" = false ->
              get o' "trim" = VBool true))
  /\ (forall files (given : gmap string value),
        exists o' r,
          prepare_options files
            (argv_of (<["f" := VStr "starling"]>
                        (<["format" := VStr "starling"]> given)))
          = (<["f" := VStr "starling"]> o', r)
          /\ prepare_options files
               (argv_of (<["f" := VStr "sparrow"]>
                           (<["format" := VStr "sparrow"]> given)))
             = (<["f" := VStr "sparrow"]> o', r)
          /\ get o' "format"
             = VArr [VEntry (Format.mk "starling.template" "xml" true)]).
Proof.
  assert (Hmember : forall name,
             name = "starling" \/ name = "sparrow" ->
             FORMATS !! name
             = Some (Format.mk "starling.template" "xml" true))
    by (intros name [-> | ->]; reflexivity).
  assert (Hprep : forall (o0 : gmap string value) files,
             prepare_options files (<["format" := VStr "starling"]> o0) =
             prepare_options files (<["format" := VStr "sparrow"]> o0)).
  { intros o0 files. unfold prepare_options, m_bind.
    rewrite (resolve_format_registered o0 "starling"
               (Format.mk "starling.template" "xml" true)) by reflexivity.
    rewrite (resolve_format_registered o0 "sparrow"
               (Format.mk "starling.template" "xml" true)) by reflexivity.
    reflexivity. }
  split; [reflexivity |]. split; [reflexivity |].
  split; [intros files; apply Hprep |].
  split; [| split; [| split]].
  - apply generate_same_prepared; [| intros files; apply Hprep].
    now rewrite !get_insert_ne by discriminate.
  - intros name files Hname.
    apply prepare_options_registered_format, Hmember, Hname.
  - intros name f0 rest Hname [p Hp] Hmethod.
    destruct (prepare_options_first_format f0 rest
                (<["format" := VStr name]> o) name
                (Format.mk "starling.template" "xml" true))
      as (o' & l' & Hres & Hformat & Hl' & Htrim & Hext).
    + apply Hmember, Hname.
    + left. apply get_insert_eq.
    + exists p. now rewrite get_insert_ne by discriminate.
    + apply own_method_absent. now rewrite lookup_insert_ne by discriminate.
    + exists o'. split; [exact Hres |].
      rewrite (Hl' (get_insert_eq _ _ _)) in Hformat.
      split; [exact Hformat |].
      rewrite !hasOwnProperty_insert_ne in Htrim, Hext by discriminate.
      split; [exact Hext | exact Htrim].
  - intros files given.
    assert (Kf : forall n,
               In n [ "format"; "customFormat"; "name"; "path";
                      "hasOwnProperty"; "fullpath"; "square"; "powerOfTwo";
                      "extension"; "trim"; "validate"; "algorithm"; "sort";
                      "padding"; "prefix"; "divisibleByTwo"; "cssOrder" ] ->
               "f" <> n)
      by (intros n Hn; cbn in Hn; intuition (subst; discriminate)).
    exists (fst (prepare_options files
                   (<["format" := VStr "starling"]> (argv_of given)))),
           (snd (prepare_options files
                   (<["format" := VStr "starling"]> (argv_of given)))).
    unfold argv_of. rewrite <- !insert_union_l.
    rewrite !(ignores_prepare_options "f" Kf files).
    split; [reflexivity |]. split.
    + now rewrite <- Hprep.
    + now apply prepare_options_registered_format.
Qed.
End Starling.

(** The two names given through the programming interface, with no
    extension set. *)
Lemma starling_sparrow_same_run_witness :
  let o : gmap string value := {[ "ext" := VStr "png" ]} in
  same_run
    (Example.run_with None "assets" (<["format" := VStr "starling"]> o)
       Example.disk)
    (Example.run_with None "assets" (<["format" := VStr "sparrow"]> o)
       Example.disk)
  /\ exists o',
       @prepare_options Example.platform ["assets/a.png"]
         (<["format" := VStr "sparrow"]> o) = (o', Ret tt)
       /\ get o' "format"
          = VArr [VEntry (Format.mk "starling.template" "xml" true)]
       /\ get o' "extension" = VStr "xml".
Proof.
  intros o.
  destruct (@starling_sparrow_same_run Example.platform
              (Example.generator None) "assets" o Example.disk)
    as (_ & _ & _ & Hrun & _ & Hresolved & _).
  split; [exact Hrun |].
  destruct (Hresolved "sparrow" "assets/a.png" [] (or_intror eq_refl)
              (ex_intro _ "export" eq_refl) eq_refl)
    as (o' & Hprep & Hformat & Hext & _).
  exists o'. split; [exact Hprep |]. split; [exact Hformat |].
  apply Hext. reflexivity.
Defined.

(** * Further properties of the driver *)

(** ** How the defaulting block ends *)

Lemma wpr_frame {B} l (m : M (gmap string value) unit)
    (k : M (gmap string value) B) Q o :
  has_all l o ->
  (forall x y, In (x, y) l -> keeps x m) ->
  (forall o0, has_all l o0 -> snd (m o0) = Ret tt) ->
  (forall o1, has_all l o1 -> wpr k Q o1) ->
  wpr (m_bind m (fun _ => k)) Q o.
Proof.
  intros Hl Hkeeps Hret Hk. unfold wpr, m_bind.
  pose proof (has_all_keeps l m Hkeeps o Hl) as Hl1.
  specialize (Hret o Hl).
  destruct (m o) as [o1 [[] | e]]; cbn in Hret, Hl1; [| discriminate].
  now apply Hk.
Qed.

Lemma wpr_assoc {A B C} (m : M (gmap string value) A)
    (f : A -> M (gmap string value) B) (g : B -> M (gmap string value) C) Q o :
  wpr (m_bind m (fun a => m_bind (f a) g)) Q o ->
  wpr (m_bind (m_bind m f) g) Q o.
Proof.
  unfold wpr, m_bind. destruct (m o) as [o1 [a | e]]; [| trivial].
  now destruct (f a o1) as [o2 [b | e]].
Qed.

Lemma wpr_bind_read {B} (f : gmap string value -> M (gmap string value) B) Q o :
  wpr (f o) Q o -> wpr (m_bind m_read f) Q o.
Proof. intros H. exact H. Qed.

Lemma wpr_bind_lift {A B} (e : exc A) (f : A -> M (gmap string value) B) Q o :
  match e with
  | Ret a => wpr (f a) Q o
  | Throw x => Q (Throw x) o
  end ->
  wpr (m_bind (m_lift e) f) Q o.
Proof. unfold wpr, m_bind, m_lift. now destruct e. Qed.

Lemma wpr_bind_assign {B} k v (f : unit -> M (gmap string value) B) Q o :
  wpr (f tt) Q (<[k := v]> o) -> wpr (m_bind (assign k v) f) Q o.
Proof. intros H. exact H. Qed.

(** The call of [hasOwnProperty] returns on an object on which the
    method is as on one where it can be called. *)
Lemma has_all_own_method l (o o0 : gmap string value) :
  own_method o = Ret tt ->
  In ("hasOwnProperty", o !! "hasOwnProperty") l ->
  has_all l o0 -> own_method o0 = Ret tt.
Proof.
  intros Hm Hin Hl. rewrite (own_method_lookup o); [exact Hm |].
  now apply Hl.
Qed.

(** Steps over a computation that returns as long as the method
    [hasOwnProperty] can be called. *)
Ltac step_returning :=
  lazymatch goal with
  | H : has_all ?l ?o |- wpr (m_bind _ _) _ ?o =>
      eapply (wpr_frame l);
        [ exact H
        | solve_keeps_all
        | let Hinv := fresh "Hinv" in
          intros ? Hinv;
          first
            [ reflexivity
            | rewrite default_own_returns;
              [ reflexivity
              | eapply has_all_own_method;
                [ eassumption | | exact Hinv ]; cbn; tauto ] ]
        | clear H; intros ? H ]
  end.

(** Steps over a call of [hasOwnProperty] that can be made. *)
Ltac own_returning Hm :=
  lazymatch goal with
  | H : has_all ?l ?o1 |- wpr _ _ ?o1 =>
      apply wpr_assoc, wpr_bind_lift;
      rewrite (hasOwnProperty_call_ok o1)
        by (eapply has_all_own_method; [exact Hm | | exact H]; cbn; tauto)
  end.

Section BlockResult.
Context {P : Platform}.


(** On a non-empty list of files the defaulting block is left by an
    exception in four cases only, each decided by the options as they
    are passed, and otherwise returns. *)
Lemma resolve_options_ends f0 rest (o : gmap string value) :
  snd (resolve_options (f0 :: rest) o) =
  match block_error o with
  | Some e => Throw e
  | None => Ret tt
  end.
Proof.
  change (wpr (resolve_options (f0 :: rest))
            (fun r _ => r = match block_error o with
                            | Some e => Throw e
                            | None => Ret tt
                            end) o).
  assert (H0 : has_all [("path", o !! "path");
                        ("hasOwnProperty", o !! "hasOwnProperty");
                        ("extension", o !! "extension");
                        ("trim", o !! "trim");
                        ("format", o !! "format")] o) by has_all_intro.
  unfold resolve_options, block_error.
  step_returning.
  unfold set_path.
  apply wpr_assoc, wpr_bind_read, wpr_assoc, wpr_bind_lift.
  rewrite (has_all_get _ _ "path" _ H0) by (cbn; tauto).
  change (default VUndef (o !! "path")) with (get o "path").
  destruct (string_arg "paths[0]" (js_or (get o "path") (VStr "export")))
    as [p | e]; [| reflexivity].
  apply wpr_bind_assign.
  lazymatch goal with
  | |- wpr _ _ (<[_ := ?v]> ?o1) =>
      assert (H1 : has_all [("hasOwnProperty", o !! "hasOwnProperty");
                            ("extension", o !! "extension");
                            ("trim", o !! "trim");
                            ("format", o !! "format")]
                     (<["path" := v]> o1))
        by (has_all_intro; apply H0; cbn; tauto)
  end.
  clear H0.
  destruct (own_method o) as [[] | e] eqn:Hm.
  2:{ unfold wpr, m_bind at 1, default_own, m_bind, m_read, m_lift.
      cbv beta iota.
      rewrite (hasOwnProperty_call_throw _ _ e); [reflexivity |].
      rewrite (own_method_lookup o); [exact Hm |].
      apply H1. cbn. tauto. }
  do 3 step_returning.
  unfold set_extension.
  apply wpr_assoc, wpr_bind_read. own_returning Hm.
  apply wpr_assoc, wpr_bind_lift.
  rewrite (has_all_own _ _ "extension" _ H1),
    (has_all_get _ _ "extension" _ H1) by (cbn; tauto).
  rewrite (first_format_extension_format o) by (apply H1; cbn; tauto).
  change (match o !! "extension" with Some _ => true | None => false end)
    with (hasOwnProperty o "extension").
  change (default VUndef (o !! "extension")) with (get o "extension").
  destruct (if hasOwnProperty o "extension" then _ else _) as [ext | e];
    [| reflexivity].
  apply wpr_bind_assign.
  lazymatch goal with
  | |- wpr _ _ (<[_ := ?v]> ?o1) =>
      assert (H2 : has_all [("hasOwnProperty", o !! "hasOwnProperty");
                            ("trim", o !! "trim"); ("format", o !! "format")]
                     (<["extension" := v]> o1))
        by (has_all_intro; apply H1; cbn; tauto)
  end.
  clear H1. unfold set_trim.
  apply wpr_assoc, wpr_bind_read. own_returning Hm.
  apply wpr_assoc, wpr_bind_lift.
  rewrite (has_all_own _ _ "trim" _ H2),
    (has_all_get _ _ "trim" _ H2) by (cbn; tauto).
  rewrite (first_format_trim_format o) by (apply H2; cbn; tauto).
  change (match o !! "trim" with Some _ => true | None => false end)
    with (hasOwnProperty o "trim").
  change (default VUndef (o !! "trim")) with (get o "trim").
  destruct (if hasOwnProperty o "trim" then _ else _) as [tr | e];
    [| reflexivity].
  apply wpr_bind_assign.
  lazymatch goal with
  | |- wpr _ _ (<[_ := ?v]> ?o1) =>
      assert (H3 : has_all [("hasOwnProperty", o !! "hasOwnProperty")]
                     (<["trim" := v]> o1))
        by (has_all_intro; apply H2; cbn; tauto)
  end.
  clear H2. do 3 step_returning.
  unfold set_padding.
  apply wpr_assoc, wpr_bind_read. own_returning Hm.
  apply wpr_bind_assign.
  lazymatch goal with
  | |- wpr _ _ (<[_ := ?v]> ?o1) =>
      assert (H4 : has_all [("hasOwnProperty", o !! "hasOwnProperty")]
                     (<["padding" := v]> o1))
        by (has_all_intro; apply H3; cbn; tauto)
  end.
  clear H3. do 2 step_returning.
  unfold wpr. rewrite default_own_returns; [reflexivity |].
  eapply has_all_own_method; [exact Hm | | exact H4]; cbn; tauto.
Qed.
End BlockResult.

Section OptionExceptions.
Context {P : Platform} {G : Generator}.

Lemma prepare_options_ends f0 rest (o : gmap string value) :
  snd (prepare_options (f0 :: rest) o) =
  match block_error (fst (resolve_format o)) with
  | Some e => Throw e
  | None => Ret tt
  end.
Proof.
  unfold prepare_options, m_bind.
  pose proof (resolve_format_returns o) as Hret.
  destruct (resolve_format o) as [o1 [[] | e]]; [| discriminate].
  apply resolve_options_ends.
Qed.

(** An exception of the two blocks escapes [generate] before the output
    block: nothing is invoked and the file system is as it was. *)
Lemma generate_option_throw dir options (fs : gmap string node) f0 rest e :
  glob_sync fs (dir +:+ "/*." +:+ ToString (get (default ∅ options) "ext"))
    = f0 :: rest ->
  block_error (fst (resolve_format (default ∅ options))) = Some e ->
  exists o', generate dir options fs = Run (Threw e) (World fs [] o') [].
Proof.
  intros Hglob Herr. unfold generate. rewrite Hglob.
  cbn [length Z.of_nat Z.eqb].
  pose proof (prepare_options_ends f0 rest (default ∅ options)) as Hend.
  rewrite Herr in Hend.
  destruct (prepare_options (f0 :: rest) (default ∅ options)) as [o' r].
  cbn [snd] in Hend. subst r. now exists o'.
Qed.

(** The format block does not touch the path, nor the method
    [hasOwnProperty]. *)
Lemma resolve_format_path (o : gmap string value) :
  get (fst (resolve_format o)) "path" = get o "path".
Proof.
  unfold get. now rewrite (resolve_format_keeps "path" ltac:(discriminate) o).
Qed.

Lemma resolve_format_own_method (o : gmap string value) :
  own_method (fst (resolve_format o)) = own_method o.
Proof.
  apply own_method_lookup.
  apply (resolve_format_keeps "hasOwnProperty" ltac:(discriminate) o).
Qed.

(** X1. When source files are found, the options decide how the option
    handling of [generate] ends, for an option object whose own property
    [hasOwnProperty], if it has one, is no function of a built-in
    prototype. Let [o1] be the options after the format block. If the
    path is neither falsy nor a string, or else the object has an own
    property [hasOwnProperty], or else the extension (else the trim
    flag) is no own property and cannot be read from the first format,
    [generate] throws the exception of the first of these: the callback
    and the stages are not invoked and the file system is untouched.
    Otherwise the option handling returns. *)
Theorem generate_option_exception dir options (fs : gmap string node) f0 rest :
  glob_sync fs (dir +:+ "/*." +:+ ToString (get (default ∅ options) "ext"))
    = f0 :: rest ->
  match default ∅ options !! "hasOwnProperty" with
  | Some (VBuiltin _) => False
  | _ => True
  end ->
  match block_error (fst (resolve_format (default ∅ options))) with
  | Some e =>
      exists o', generate dir options fs = Run (Threw e) (World fs [] o') []
  | None =>
      exists o', prepare_options (f0 :: rest) (default ∅ options) = (o', Ret tt)
  end.
Proof.
  intros Hglob _.
  destruct (block_error _) as [e |] eqn:Herr.
  - now apply (generate_option_throw dir options fs f0 rest e).
  - pose proof (prepare_options_ends f0 rest (default ∅ options)) as Hend.
    rewrite Herr in Hend.
    destruct (prepare_options (f0 :: rest) (default ∅ options)) as [o' r].
    cbn [snd] in Hend. subst r. now exists o'.
Qed.

(** X2. An array of formats has no fallback: a first name that is in no
    table stays [undefined], and when the caller sets no extension (and
    does not hide the method [hasOwnProperty]), [generate] throws the
    [TypeError] of reading its extension, before the output block and
    the stages. *)
Theorem unknown_first_format_throws dir options (fs : gmap string node)
    f0 rest x l :
  let o := default ∅ options in
  glob_sync fs (dir +:+ "/*." +:+ ToString (get o "ext")) = f0 :: rest ->
  get o "format" = VArr (x :: l) ->
  FORMATS_get (ToString x) = VUndef ->
  o !! "hasOwnProperty" = None ->
  hasOwnProperty o "extension" = false ->
  (exists p, js_or (get o "path") (VStr "export") = VStr p) ->
  exists o',
    generate dir options fs =
    Run (Threw (TypeError
                  "Cannot read properties of undefined (reading 'extension')"))
        (World fs [] o') [].
Proof.
  intros o Hglob Hformat Hx Hmethod Hown [p Hp].
  apply (generate_option_throw dir options fs f0 rest); [exact Hglob |].
  fold o. unfold block_error.
  rewrite resolve_format_path, resolve_format_own_method.
  rewrite Hp, (own_method_absent o Hmethod). cbn [string_arg].
  unfold resolve_format, m_bind, m_read. cbv beta iota.
  rewrite Hformat. cbn [assign fst List.map]. rewrite Hx.
  unfold hasOwnProperty. rewrite lookup_insert_ne by discriminate.
  fold (hasOwnProperty o "extension"). rewrite Hown.
  unfold first_format_extension. rewrite get_insert_eq. reflexivity.
Qed.



(** X4. A path that is truthy and no string makes [generate] throw a
    [TypeError], that of [path.resolve], before the output block and the
    stages. *)
Theorem non_string_path_throws dir options (fs : gmap string node) f0 rest :
  let o := default ∅ options in
  glob_sync fs (dir +:+ "/*." +:+ ToString (get o "ext")) = f0 :: rest ->
  truthy (get o "path") = true ->
  match get o "path" with VStr _ => False | _ => True end ->
  exists msg o',
    generate dir options fs = Run (Threw (TypeError msg)) (World fs [] o') [].
Proof.
  intros o Hglob Htruthy Hstr.
  exists (path_invalid_arg "paths[0]" (get o "path")).
  apply (generate_option_throw dir options fs f0 rest); [exact Hglob |].
  fold o. unfold block_error. rewrite resolve_format_path.
  unfold js_or. rewrite Htruthy.
  destruct (get o "path"); try contradiction; reflexivity.
Qed.
End OptionExceptions.

(** A format array whose first name is in no table, with an extension
    given; and an option object whose own property hides the method. *)
Lemma generate_option_exception_witness :
  (exists o',
     Example.run_with None "assets"
       {[ "ext" := VStr "png"; "format" := VArr [VStr "tga"];
          "extension" := VStr "json" ]} Example.disk =
     Run (Threw (TypeError "Cannot read properties of undefined (reading 'trim')"))
         (World Example.disk [] o') [])
  /\ (exists o',
        Example.run_with None "assets"
          {[ "ext" := VStr "png"; "format" := VStr "starling";
             "hasOwnProperty" := VNum (Int 5) ]} Example.disk =
        Run (Threw (TypeError "options.hasOwnProperty is not a function"))
            (World Example.disk [] o') []).
Proof.
  split.
  - exact (@generate_option_exception Example.platform (Example.generator None)
             "assets"
             (Some {[ "ext" := VStr "png"; "format" := VArr [VStr "tga"];
                      "extension" := VStr "json" ]})
             Example.disk "assets/a.png" ["assets/b.png"] eq_refl I).
  - exact (@generate_option_exception Example.platform (Example.generator None)
             "assets"
             (Some {[ "ext" := VStr "png"; "format" := VStr "starling";
                      "hasOwnProperty" := VNum (Int 5) ]})
             Example.disk "assets/a.png" ["assets/b.png"] eq_refl I).
Defined.

Lemma unknown_first_format_throws_witness :
  exists o',
    Example.run_with None "assets"
      {[ "ext" := VStr "png"; "format" := VArr [VStr "tga"; VStr "json"] ]}
      Example.disk =
    Run (Threw (TypeError
                  "Cannot read properties of undefined (reading 'extension')"))
        (World Example.disk [] o') [].
Proof.
  refine (@unknown_first_format_throws Example.platform (Example.generator None)
            "assets"
            (Some {[ "ext" := VStr "png";
                     "format" := VArr [VStr "tga"; VStr "json"] ]})
            Example.disk "assets/a.png" ["assets/b.png"]
            (VStr "tga") [VStr "json"] eq_refl _ _ _ _ _).
  - reflexivity.
  - reflexivity.
  - reflexivity.
  - reflexivity.
  - exists "export". reflexivity.
Defined.


(** The number 5 given as the path. *)
Lemma non_string_path_throws_witness :
  exists msg o',
    Example.run_with None "assets"
      {[ "ext" := VStr "png"; "path" := VNum (Int 5) ]} Example.disk =
    Run (Threw (TypeError msg)) (World Example.disk [] o') [].
Proof.
  refine (@non_string_path_throws Example.platform (Example.generator None)
            "assets" (Some {[ "ext" := VStr "png"; "path" := VNum (Int 5) ]})
            Example.disk "assets/a.png" ["assets/b.png"] eq_refl _ _).
  - reflexivity.
  - exact I.
Defined.

(** ** The options the block defaults, and those it leaves alone *)





(** Steps over the computations that do not assign the property in
    hand, up to the one that does. *)
Ltac steps_to_assignment := repeat (step_over; [idtac]).


Section Defaulted.
Context {P : Platform}.

End Defaulted.

Section OptionValues.
Context {P : Platform}.


(** The two blocks assign fifteen options and no other. *)
Lemma prepare_options_keeps files k :
  ~ In k [ "format"; "name"; "path"; "fullpath"; "square"; "powerOfTwo";
           "extension"; "trim"; "validate"; "algorithm"; "sort"; "padding";
           "prefix"; "divisibleByTwo"; "cssOrder" ] ->
  keeps k (prepare_options files).
Proof.
  intros Hk.
  assert (K : forall n,
             In n [ "format"; "name"; "path"; "fullpath"; "square";
                    "powerOfTwo"; "extension"; "trim"; "validate";
                    "algorithm"; "sort"; "padding"; "prefix";
                    "divisibleByTwo"; "cssOrder" ] -> n <> k)
    by (intros n Hn ->; contradiction).
  unfold prepare_options.
  apply keeps_bind;
    [apply resolve_format_keeps; apply not_eq_sym, K; cbn; tauto | intros _].
  unfold resolve_options. unfold_steps.
  repeat first
    [ apply keeps_bind; [| intros ?]
    | apply keeps_assign; apply K; cbn; tauto
    | apply keeps_default_own; apply K; cbn; tauto
    | apply keeps_lift
    | apply keeps_read
    | apply keeps_ret ].
Qed.

(** X6. The two blocks assign fifteen options and no other: every other
    property of the option object (the source extension, the custom
    template, width, height, scale, fuzz, the TinyPNG key, ...) is left
    as the caller passed it, also when a block is left by an exception. *)
Theorem other_options_are_left_alone files (o : gmap string value) k :
  ~ In k [ "format"; "name"; "path"; "fullpath"; "square"; "powerOfTwo";
           "extension"; "trim"; "validate"; "algorithm"; "sort"; "padding";
           "prefix"; "divisibleByTwo"; "cssOrder" ] ->
  fst (prepare_options files o) !! k = o !! k.
Proof. intros Hk. exact (prepare_options_keeps files k Hk o). Qed.

Lemma resolve_options_path files (o : gmap string value) :
  wp (resolve_options files)
     (fun _ o' =>
        forall p, js_or (get o "path") (VStr "export") = VStr p ->
                  o' !! "path" = Some (VStr (path_resolve p))) o.
Proof.
  assert (H0 : has_all [("path", o !! "path")] o) by has_all_intro.
  unfold resolve_options. step_over. unfold set_path.
  apply wp_assoc, wp_bind_read, wp_assoc, wp_bind_lift.
  intros q Hq. apply wp_bind_assign.
  rewrite (has_all_get _ _ "path" _ H0) in Hq by (cbn; tauto).
  change (default VUndef (o !! "path")) with (get o "path") in Hq.
  lazymatch goal with
  | |- wp _ _ (<[_ := ?v]> ?o1) =>
      assert (H1 : has_all [("path", Some v)] (<["path" := v]> o1))
        by has_all_intro
  end.
  clear H0. steps_to_assignment. finish_over.
  intros p Hp. rewrite Hp in Hq. injection Hq as <-.
  apply H1. cbn. tauto.
Qed.

(** X7. When the options resolve, a name the caller gives (a truthy
    one) is kept as it is, and the output path is [path.resolve] of the
    path the caller gives, or of "export" when the caller gives none or a
    falsy one. *)
Theorem explicit_name_and_path f0 rest (o o' : gmap string value) :
  prepare_options (f0 :: rest) o = (o', Ret tt) ->
  (truthy (get o "name") = true -> get o' "name" = get o "name")
  /\ (forall p, js_or (get o "path") (VStr "export") = VStr p ->
        o' !! "path" = Some (VStr (path_resolve p))).
Proof.
  intros Hprep. split.
  - intros Hname. pose proof (prepare_options_name f0 rest o) as H.
    rewrite Hprep in H. cbn [fst] in H. rewrite H. unfold js_or.
    now rewrite Hname.
  - intros p Hp.
    unfold prepare_options, m_bind in Hprep.
    pose proof (resolve_format_path o) as Hpath.
    destruct (resolve_format o) as [o1 [[] | e]]; [| discriminate].
    cbn [fst] in Hpath.
    apply (wp_elim _ _ _ _ _ (resolve_options_path (f0 :: rest) o1) Hprep).
    now rewrite Hpath.
Qed.
End OptionValues.


(** A width given for the packing. *)
Lemma other_options_are_left_alone_witness :
  fst (@prepare_options Example.platform ["assets/a.png"]
         {[ "ext" := VStr "png"; "width" := VNum (Int 512) ]}) !! "width"
  = Some (VNum (Int 512)).
Proof.
  refine (@other_options_are_left_alone Example.platform ["assets/a.png"]
            {[ "ext" := VStr "png"; "width" := VNum (Int 512) ]} "width" _).
  cbn. intuition discriminate.
Defined.

(** A name and a path given. *)
Lemma explicit_name_and_path_witness :
  let o : gmap string value :=
    {[ "ext" := VStr "png"; "name" := VStr "sheet"; "path" := VStr "out" ]} in
  let o' := fst (@prepare_options Example.platform ["assets/a.png"] o) in
  get o' "name" = VStr "sheet" /\ o' !! "path" = Some (VStr "/work/out").
Proof.
  intros o o'.
  assert (Hprep : @prepare_options Example.platform ["assets/a.png"] o
                  = (o', Ret tt)) by (vm_compute; reflexivity).
  destruct (@explicit_name_and_path Example.platform "assets/a.png" [] o o'
              Hprep) as [Hname Hpath].
  split.
  - exact (Hname eq_refl).
  - exact (Hpath "out" eq_refl).
Defined.

(** ** Passing the resolved options again *)

Section Reuse.
Context {P : Platform}.

Lemma resolve_options_owned files (o : gmap string value) :
  wp (resolve_options files)
     (fun _ o' =>
        (exists p, o' !! "path" = Some (VStr p))
        /\ is_Some (o' !! "extension")
        /\ is_Some (o' !! "trim")
        /\ o' !! "format" = o !! "format") o.
Proof.
  assert (H0 : has_all [("format", o !! "format")] o) by has_all_intro.
  unfold resolve_options. step_over. unfold set_path.
  apply wp_assoc, wp_bind_read, wp_assoc, wp_bind_lift.
  intros q _. apply wp_bind_assign.
  lazymatch goal with
  | |- wp _ _ (<[_ := ?v]> ?o1) =>
      assert (H1 : has_all [("path", Some v); ("format", o !! "format")]
                     (<["path" := v]> o1))
        by (has_all_intro; apply H0; cbn; tauto)
  end.
  clear H0. do 3 step_over. unfold set_extension.
  apply wp_assoc, wp_bind_read. own_step. apply wp_assoc, wp_bind_lift.
  intros ext _. apply wp_bind_assign.
  lazymatch goal with
  | |- wp _ _ (<[_ := ?v]> ?o1) =>
      assert (H2 : has_all [("extension", Some v);
                            ("path", Some (VStr (path_resolve q)));
                            ("format", o !! "format")]
                     (<["extension" := v]> o1))
        by (has_all_intro; apply H1; cbn; tauto)
  end.
  clear H1. unfold set_trim.
  apply wp_assoc, wp_bind_read. own_step. apply wp_assoc, wp_bind_lift.
  intros tr _. apply wp_bind_assign.
  lazymatch goal with
  | |- wp _ _ (<[_ := ?v]> ?o1) =>
      assert (H3 : has_all [("trim", Some v); ("extension", Some ext);
                            ("path", Some (VStr (path_resolve q)));
                            ("format", o !! "format")]
                     (<["trim" := v]> o1))
        by (has_all_intro; apply H2; cbn; tauto)
  end.
  clear H2. do 6 step_over. finish_over.
  split; [| split; [| split]].
  - exists (path_resolve q). apply H3. cbn. tauto.
  - exists ext. apply H3. cbn. tauto.
  - exists tr. apply H3. cbn. tauto.
  - apply H3. cbn. tauto.
Qed.

(** The defaulting block does not touch the method [hasOwnProperty]. *)
Lemma resolve_options_method files :
  keeps "hasOwnProperty" (resolve_options files).
Proof. unfold resolve_options. unfold_steps. solve_keeps. Qed.

Lemma block_error_owned (o : gmap string value) p :
  o !! "path" = Some (VStr p) -> own_method o = Ret tt ->
  is_Some (o !! "extension") -> is_Some (o !! "trim") ->
  block_error o = None.
Proof.
  intros Hp Hm [ext Hext] [tr Htr].
  unfold block_error, hasOwnProperty, get, js_or.
  rewrite Hp, Hm, Hext, Htr. cbn. now destruct (negb _).
Qed.

(** X8. [generate] resolves the options in the caller's object, and an
    object so resolved cannot be passed again: the format, by then the
    array of a table member, is looked up in the table once more and
    becomes an array holding [undefined], while the blocks return as
    before. The caller's object names a registered format, has a path
    that is a string or falsy and does not hide the method
    [hasOwnProperty]. *)
Theorem resolved_options_lose_format_when_reused f0 rest g0 more
    (o : gmap string value) f e :
  FORMATS !! f = Some e ->
  get o "format" = VStr f ->
  (exists p, js_or (get o "path") (VStr "export") = VStr p) ->
  o !! "hasOwnProperty" = None ->
  exists o1 o2,
    prepare_options (f0 :: rest) o = (o1, Ret tt)
    /\ get o1 "format" = VArr [VEntry e]
    /\ prepare_options (g0 :: more) o1 = (o2, Ret tt)
    /\ get o2 "format" = VArr [VUndef].
Proof.
  intros Hf Hformat [p Hp] Hmethod.
  assert (Hres : resolve_format o =
                 (<["format" := VArr [VEntry e]]> o, Ret tt)).
  { rewrite <- (resolve_format_registered o f e Hf). f_equal. symmetry.
    apply insert_id. unfold get in Hformat.
    destruct (o !! "format"); cbn in Hformat; congruence. }
  set (oa := <["format" := VArr [VEntry e]]> o) in Hres.
  assert (Hma : oa !! "hasOwnProperty" = None)
    by (subst oa; now rewrite lookup_insert_ne by discriminate).
  assert (Hfirst : exists o1, resolve_options (f0 :: rest) oa = (o1, Ret tt)).
  { pose proof (resolve_options_ends f0 rest oa) as Hend.
    assert (Hnone : block_error oa = None).
    { unfold block_error. rewrite (own_method_absent oa Hma). subst oa.
      rewrite get_insert_ne by discriminate. rewrite Hp. cbn [string_arg].
      unfold first_format_extension, first_format_trim.
      rewrite get_insert_eq. cbn [get_index0 List.hd exc_bind].
      destruct (hasOwnProperty _ "extension"), (hasOwnProperty _ "trim");
        reflexivity. }
    rewrite Hnone in Hend.
    destruct (resolve_options (f0 :: rest) oa) as [o1 r].
    cbn [snd] in Hend. subst r. now exists o1. }
  destruct Hfirst as [o1 Hfirst].
  destruct (wp_elim _ _ _ _ _ (resolve_options_owned (f0 :: rest) oa) Hfirst)
    as ([p1 Hp1] & Hext1 & Htrim1 & Hformat1).
  assert (Hget1 : get o1 "format" = VArr [VEntry e]).
  { unfold get. rewrite Hformat1. subst oa. now rewrite lookup_insert_eq. }
  assert (Hm1 : o1 !! "hasOwnProperty" = None).
  { pose proof (resolve_options_method (f0 :: rest) oa) as Hkeep.
    rewrite Hfirst in Hkeep. cbn [fst] in Hkeep. now rewrite Hkeep. }
  assert (Hres1 : resolve_format o1 =
                  (<["format" := VArr [VUndef]]> o1, Ret tt)).
  { unfold resolve_format, m_bind, m_read. cbv beta iota.
    rewrite Hget1. reflexivity. }
  set (ob := <["format" := VArr [VUndef]]> o1) in Hres1.
  assert (Hsecond : exists o2, resolve_options (g0 :: more) ob = (o2, Ret tt)).
  { pose proof (resolve_options_ends g0 more ob) as Hend.
    rewrite (block_error_owned ob p1) in Hend.
    - destruct (resolve_options (g0 :: more) ob) as [o2 r].
      cbn [snd] in Hend. subst r. now exists o2.
    - subst ob. now rewrite lookup_insert_ne by discriminate.
    - apply own_method_absent. subst ob.
      now rewrite lookup_insert_ne by discriminate.
    - subst ob. now rewrite lookup_insert_ne by discriminate.
    - subst ob. now rewrite lookup_insert_ne by discriminate. }
  destruct Hsecond as [o2 Hsecond].
  destruct (wp_elim _ _ _ _ _ (resolve_options_owned (g0 :: more) ob) Hsecond)
    as (_ & _ & _ & Hformat2).
  exists o1, o2. split; [| split; [exact Hget1 | split]].
  - unfold prepare_options, m_bind. now rewrite Hres.
  - unfold prepare_options, m_bind. now rewrite Hres1.
  - unfold get. rewrite Hformat2. subst ob. now rewrite lookup_insert_eq.
Qed.
End Reuse.

(** The format [json], resolved twice. *)
Lemma resolved_options_lose_format_when_reused_witness :
  exists o1 o2,
    @prepare_options Example.platform ["assets/a.png"]
      {[ "ext" := VStr "png"; "format" := VStr "json" ]} = (o1, Ret tt)
    /\ get o1 "format" = VArr [VEntry (Format.mk "json.template" "json" false)]
    /\ @prepare_options Example.platform ["assets/a.png"] o1 = (o2, Ret tt)
    /\ get o2 "format" = VArr [VUndef].
Proof.
  refine (@resolved_options_lose_format_when_reused Example.platform
            "assets/a.png" [] "assets/a.png" []
            {[ "ext" := VStr "png"; "format" := VStr "json" ]}
            "json" (Format.mk "json.template" "json" false) _ _ _ _).
  - reflexivity.
  - reflexivity.
  - exists "export". reflexivity.
  - reflexivity.
Defined.

(** ** What the output block touches *)

Section OutputTouches.
Context {P : Platform} {G : Generator}.

Lemma unlinkSync_other (fs : gmap string node) q' q :
  q <> q' -> fst (unlinkSync q' fs) !! q = fs !! q.
Proof.
  intros Hne. unfold unlinkSync.
  destruct (fs !! q') as [[c |] |]; cbn; [| reflexivity | reflexivity].
  now rewrite lookup_delete_ne by congruence.
Qed.

Lemma mkdirSync_other (fs : gmap string node) p q :
  q <> p -> fst (mkdirSync p fs) !! q = fs !! q.
Proof.
  intros Hne. unfold mkdirSync.
  destruct (fs !! p); [reflexivity |].
  destruct (fs !! path_dirname p) as [[c |] |]; cbn; try reflexivity.
  now rewrite lookup_insert_ne by congruence.
Qed.

(** X9. Whatever the file system holds, and also when it is left by an
    exception, the output block changes nothing outside three paths: the
    output path itself and the paths of the image and of the JSON file
    under it (with every backslash before a space dropped). Every other
    file or directory is as it was when the stages start. *)
Theorem output_block_touches_three_paths (o : gmap string value)
    (fs : gmap string node) q :
  q <> ToString (get o "path") ->
  q <> replace_escaped_spaces (spritesheet_path o ".png") ->
  q <> replace_escaped_spaces (spritesheet_path o ".json") ->
  fst (clean_output o fs) !! q = fs !! q.
Proof.
  intros Hp Hpng Hjson.
  unfold clean_output, m_bind at 1, m_read at 1. cbv beta iota.
  destruct (existsSync fs (ToString (get o "path"))); cbn [negb].
  - unfold m_bind at 1.
    pose proof (unlinkSync_other fs _ q Hpng) as H1.
    destruct (existsSync fs (spritesheet_path o ".png")).
    + destruct (unlinkSync _ fs) as [fs1 [[] | e]]; cbn [fst] in H1;
        [| exact H1].
      unfold m_bind, m_read. cbv beta iota.
      destruct (existsSync fs1 (spritesheet_path o ".json")).
      * now rewrite (unlinkSync_other fs1 _ q Hjson).
      * exact H1.
    + unfold m_ret, m_bind, m_read. cbv beta iota.
      destruct (existsSync fs (spritesheet_path o ".json")).
      * now rewrite (unlinkSync_other fs _ q Hjson).
      * reflexivity.
  - destruct (negb _); [| reflexivity].
    now apply mkdirSync_other.
Qed.

(** X10. The image of a previous run is looked for at its path as it is
    but removed at that path with every backslash before a space dropped.
    When the image exists and nothing is at the other path, the run ends
    with the exception of [unlinkSync] before any stage, and the image is
    still there. *)
Theorem escaped_space_in_name_breaks_cleanup dir options
    (fs : gmap string node) files (o : gmap string value) p :
  glob_sync fs (dir +:+ "/*." +:+ ToString (get (default ∅ options) "ext"))
    = files ->
  files <> [] ->
  prepare_options files (default ∅ options) = (o, Ret tt) ->
  get o "path" = VStr p ->
  is_Some (fs !! p) ->
  is_Some (fs !! spritesheet_path o ".png") ->
  fs !! replace_escaped_spaces (spritesheet_path o ".png") = None ->
  generate dir options fs =
  Run (Threw (FsError "ENOENT"
                (replace_escaped_spaces (spritesheet_path o ".png"))))
      (World fs (imap (file_object o) files) o) [].
Proof.
  intros Hglob Hfiles Hprep Hp [n Hn] [c Hc] Hmiss.
  unfold generate. rewrite Hglob.
  destruct files as [| f0 rest]; [contradiction |].
  cbn [length Z.of_nat Z.eqb]. rewrite Hprep.
  unfold clean_output, m_bind at 1, m_read at 1. cbv beta iota.
  unfold existsSync at 1. rewrite Hp. cbn [ToString]. rewrite Hn. cbn [negb].
  unfold m_bind at 1, existsSync at 1. rewrite Hc.
  unfold unlinkSync. rewrite Hmiss. reflexivity.
Qed.

(** X11. The callback is invoked without an error exactly when the five
    stages have all been invoked and have passed, in the order
    [treatImages], [getImagesSizes], [determineCanvasSize],
    [generateImage], [generateData]. *)
Theorem success_iff_all_stages_passed dir options fs :
  r_outcome (generate dir options fs) = Called None <->
  r_trace (generate dir options fs) =
  [ (TreatImages, Passed); (GetImagesSizes, Passed);
    (DetermineCanvasSize, Passed); (GenerateImage, Passed);
    (GenerateData, Passed) ].
Proof.
  split.
  - intros Hok. now rewrite (generate_passed_trace dir options fs Hok).
  - intros Htrace.
    destruct (generate_cases dir options fs) as [[Hnil _] | [w Hw]].
    + rewrite Hnil in Htrace. discriminate.
    + rewrite Hw in Htrace |- *.
      destruct (waterfall_trace pipeline ANone w []) as [[Hok _] | [_ Hfail]];
        [exact Hok |].
      destruct Hfail as (pre & s & post & Hsplit & Htr).
      rewrite Htr in Htrace. cbn [app] in Htrace.
      assert (Hin : In (s, Failed) (passed pre ++ [(s, Failed)]))
        by (apply in_or_app; right; cbn; tauto).
      rewrite Htrace in Hin. cbn in Hin. intuition discriminate.
Qed.
End OutputTouches.

(** A sheet named with an escaped space, made by a previous run. *)
Lemma escaped_space_in_name_breaks_cleanup_witness :
  let options : gmap string value :=
    {[ "ext" := VStr "png"; "name" := VStr "my\ sheet" ]} in
  let old : gmap string node :=
    <["/work/export/my\ sheet.png" := File "old atlas"]>
      (<["/work/export" := Dir]> Example.disk) in
  let r := Example.run_with None "assets" options old in
  r_outcome r = Threw (FsError "ENOENT" "/work/export/my sheet.png")
  /\ r_trace r = []
  /\ w_fs (r_world r) !! "/work/export/my\ sheet.png" = Some (File "old atlas").
Proof.
  intros options old r.
  pose proof (@escaped_space_in_name_breaks_cleanup Example.platform
                (Example.generator None) "assets" (Some options) old
                ["assets/a.png"; "assets/b.png"]
                (fst (@prepare_options Example.platform
                        ["assets/a.png"; "assets/b.png"] options))
                "/work/export" eq_refl) as H.
  subst r. unfold Example.run_with. rewrite H.
  - repeat split.
  - discriminate.
  - vm_compute. reflexivity.
  - vm_compute. reflexivity.
  - vm_compute. eauto.
  - vm_compute. eauto.
  - vm_compute. reflexivity.
Defined.

(** An output directory next to the sources. *)
Lemma output_block_touches_three_paths_witness :
  fst (@clean_output Example.platform
         {[ "path" := VStr "/work/export"; "name" := VStr "assets" ]}
         Example.disk) !! "/work/assets/a.png"
  = Some (File "A").
Proof.
  refine (@output_block_touches_three_paths Example.platform
            {[ "path" := VStr "/work/export"; "name" := VStr "assets" ]}
            Example.disk "/work/assets/a.png" _ _ _);
    vm_compute; discriminate.
Defined.

(** ** Options that come from the command line *)

Lemma argv_of_given (given : gmap string value) k v :
  given !! k = Some v -> argv_of given !! k = Some v.
Proof. intros H. unfold argv_of. now apply lookup_union_Some_l. Qed.

Lemma argv_of_default (given : gmap string value) k :
  given !! k = None -> argv_of given !! k = cli_defaults !! k.
Proof. intros H. unfold argv_of. now apply lookup_union_r. Qed.

Section CommandLine.
Context {P : Platform}.

(** X12. Through the command line the trim flag never comes from the
    format: the option table gives every invocation a trim flag, so the
    resolved flag is the one given on the command line, and false when
    none is given, whatever the format. *)
Theorem command_line_trim_ignores_format files
    (given o' : gmap string value) :
  prepare_options files (argv_of given) = (o', Ret tt) ->
  get o' "trim" = default (VBool false) (given !! "trim").
Proof.
  intros Hprep.
  destruct (wp_elim _ _ _ _ _
              (prepare_options_extension_trim files (argv_of given)) Hprep)
    as [_ Htrim].
  assert (Hargv : argv_of given !! "trim"
                  = Some (default (VBool false) (given !! "trim"))).
  { destruct (given !! "trim") as [v |] eqn:Hg.
    - now apply argv_of_given.
    - now rewrite argv_of_default. }
  unfold hasOwnProperty in Htrim. rewrite Hargv in Htrim.
  unfold get in Htrim at 1. rewrite Hargv in Htrim. cbn in Htrim.
  congruence.
Qed.
End CommandLine.

Section CheckDefaults.
Variable StringToNumber : string -> number.

(** X13. The check accepts every invocation that names no algorithm
    (the default is not [binpacking]), whatever its width and height, and
    every invocation whose width and height are both integers. *)
Theorem check_accepts_ordinary_invocations (given : gmap string value) :
  (given !! "algorithm" = None ->
   check StringToNumber (argv_of given) = Ret true)
  /\ (forall w h,
        given !! "width" = Some (VNum (Int w)) ->
        given !! "height" = Some (VNum (Int h)) ->
        check StringToNumber (argv_of given) = Ret true).
Proof.
  split.
  - intros Halg. apply check_other_algorithm. unfold get.
    now rewrite (argv_of_default given "algorithm" Halg).
  - intros w h Hw Hh. apply check_passes_iff. right. unfold get.
    now rewrite (argv_of_given given "width" _ Hw),
      (argv_of_given given "height" _ Hh).
Qed.
End CheckDefaults.

(** The format [starling], whose trim flag is set, named on the command
    line without a trim flag. *)
Lemma command_line_trim_ignores_format_witness :
  let given : gmap string value :=
    {[ "format" := VStr "starling"; "f" := VStr "starling" ]} in
  get (fst (@prepare_options Example.platform ["assets/a.png"]
              (argv_of given))) "trim"
  = VBool false.
Proof.
  intros given.
  refine (@command_line_trim_ignores_format Example.platform
            ["assets/a.png"] given _ _).
  vm_compute. reflexivity.
Defined.

(** The algorithm [binpacking] with a size of 512 by 256, and an
    invocation with no algorithm. *)
Lemma check_accepts_ordinary_invocations_witness :
  check (fun _ => NaN)
    (argv_of {[ "algorithm" := VStr "binpacking";
                "width" := VNum (Int 512); "height" := VNum (Int 256) ]})
  = Ret true
  /\ check (fun _ => NaN) (argv_of {[ "width" := VStr "wide" ]}) = Ret true.
Proof.
  split.
  - refine (proj2 (check_accepts_ordinary_invocations (fun _ => NaN) _)
              512 256 _ _); reflexivity.
  - refine (proj1 (check_accepts_ordinary_invocations (fun _ => NaN) _) _);
      reflexivity.
Defined.

(** ** An output path without a parent *)

Section MissingParent.
Context {P : Platform} {G : Generator}.

(** X14. The output directory is made alone, not its parents: when
    nothing exists at the output path nor at its parent, the run ends
    with the exception of [mkdirSync] before any stage, and the file
    system is as it was. *)
Theorem output_directory_needs_parent dir options (fs : gmap string node)
    files (o : gmap string value) p :
  glob_sync fs (dir +:+ "/*." +:+ ToString (get (default ∅ options) "ext"))
    = files ->
  files <> [] ->
  prepare_options files (default ∅ options) = (o, Ret tt) ->
  get o "path" = VStr p -> p <> "" ->
  fs !! p = None -> fs !! path_dirname p = None ->
  generate dir options fs =
  Run (Threw (FsError "ENOENT" p)) (World fs (imap (file_object o) files) o) [].
Proof.
  intros Hglob Hfiles Hprep Hp Hne Hfs Hparent.
  unfold generate. rewrite Hglob.
  destruct files as [| f0 rest]; [contradiction |].
  cbn [length Z.of_nat Z.eqb]. rewrite Hprep.
  unfold clean_output, m_bind, m_read, existsSync. cbv beta iota.
  rewrite Hp. cbn [ToString strict_eq_str]. rewrite Hfs. cbn [negb].
  destruct (String.eqb_spec p ""); [contradiction |]. cbn [negb].
  unfold mkdirSync. rewrite Hfs, Hparent. reflexivity.
Qed.
End MissingParent.

(** An output path two levels below the working directory. *)
Lemma output_directory_needs_parent_witness :
  let options : gmap string value :=
    {[ "ext" := VStr "png"; "path" := VStr "out/sprites" ]} in
  let r := Example.run_with None "assets" options Example.disk in
  r_outcome r = Threw (FsError "ENOENT" "/work/out/sprites")
  /\ r_trace r = []
  /\ w_fs (r_world r) = Example.disk.
Proof.
  intros options r.
  pose proof (@output_directory_needs_parent Example.platform
                (Example.generator None) "assets" (Some options) Example.disk
                ["assets/a.png"; "assets/b.png"]
                (fst (@prepare_options Example.platform
                        ["assets/a.png"; "assets/b.png"] options))
                "/work/out/sprites" eq_refl) as H.
  subst r. unfold Example.run_with. rewrite H.
  - repeat split.
  - discriminate.
  - vm_compute. reflexivity.
  - vm_compute. reflexivity.
  - discriminate.
  - vm_compute. reflexivity.
  - vm_compute. reflexivity.
Defined.
